(** * Dottify: authorization, scoping and aggregation of the catalogue views

    A shallow embedding of the Django application (models.py, views.py,
    api_views.py, urls.py) and the properties of its views.

    The database is a record of tables, every table a list of rows in
    insertion order, with the sequences of its primary keys and the numbers
    its backend has for an aggregate.  [request.user] is either Django's
    [AnonymousUser] or a stored [User] with its set of group names.  A view
    is a function from the database and the request to a [Response]. *)

From Stdlib Require Import ZArith QArith Qround Qabs Qpower Ascii String.
From stdpp Require Import base decidable option list strings gmap sorting.

Local Open Scope string_scope.

(** ** django.contrib.auth *)

Module Auth.

Record User := {
  user_pk : nat;
  username : string;
  groups : gset string
}.

Inductive RequestUser :=
| AnonymousUser
| Authenticated (u : User).

Definition is_authenticated (user : RequestUser) : bool :=
  match user with
  | AnonymousUser => false
  | Authenticated _ => true
  end.

(** [user.groups.filter(name=g).exists()] *)
Definition groups_filter_exists (u : User) (g : string) : bool :=
  bool_decide (g ∈ groups u).

(** [user.groups.filter(name__in=gs).exists()] *)
Definition groups_filter_in_exists (u : User) (gs : list string) : bool :=
  existsb (groups_filter_exists u) gs.

(** What a request for a mutating view comes to: the mixins of
    django.contrib.auth.mixins answer before the handler runs, and the
    handler may still refuse. *)
Inductive Access :=
| Granted                                (* nothing refuses: the handler acts *)
| LoginRedirect                          (* 302 to settings.LOGIN_URL *)
| PermissionDenied                       (* 403, raised by a mixin *)
| Http404                                (* raised by get_object() *)
| HttpResponseForbidden (content : string). (* 403, returned by a handler *)

(** [AccessMixin.handle_no_permission], with [raise_exception] left at
    its default [False]. *)
Definition handle_no_permission (user : RequestUser) : Access :=
  if is_authenticated user then PermissionDenied else LoginRedirect.

(** [LoginRequiredMixin.dispatch]: an anonymous request is answered here;
    the rest of the chain runs with a stored user. *)
Definition LoginRequiredMixin_dispatch (user : RequestUser)
    (super_dispatch : User → Access) : Access :=
  match user with
  | AnonymousUser => handle_no_permission user
  | Authenticated u => super_dispatch u
  end.

(** [UserPassesTestMixin.dispatch]; [test_func] is [None] when it raised
    [Http404]. *)
Definition UserPassesTestMixin_dispatch (u : User)
    (test_func : option bool) (super_dispatch : Access) : Access :=
  match test_func with
  | None => Http404
  | Some false => handle_no_permission (Authenticated u)
  | Some true => super_dispatch
  end.

End Auth.
Export Auth.

(** ** models.py *)

Module Models.

Record DottifyUser := {
  du_pk : nat;
  du_user : nat;              (* OneToOneField(User) *)
  display_name : string
}.

Inductive Format := SNGL | RMST | DLUX | COMP | LIVE.

Record Album := {
  album_pk : nat;
  cover_image : option string;
  title : string;
  artist_name : string;
  artist_account : option nat; (* ForeignKey(DottifyUser, null=True) *)
  retail_price : Z;            (* in hundredths *)
  format : option Format;
  release_date : Z;            (* day number *)
  slug : string
}.

(** An instance that was never saved has no [pk]. *)
Record Song := {
  song_pk : option nat;
  song_title : string;
  song_length : nat;
  position : option nat;       (* PositiveIntegerField(null=True) *)
  song_album : nat             (* ForeignKey(Album) *)
}.

Inductive Visibility := HIDDEN | UNLISTED | PUBLIC.

Definition Visibility_value (v : Visibility) : Z :=
  match v with HIDDEN => 0 | UNLISTED => 1 | PUBLIC => 2 end.

Record Playlist := {
  playlist_pk : nat;
  name : string;
  playlist_created_at : Z;
  playlist_songs : list nat;   (* ManyToManyField(Song) *)
  visibility : Visibility;
  owner : nat                  (* ForeignKey(DottifyUser) *)
}.

(** [stars] is a DecimalField(max_digits=2, decimal_places=1): the number
    of tenths.  Timestamps are microseconds since the epoch. *)
Record Rating := {
  rating_pk : nat;
  stars : Z;
  rating_album : option nat;   (* ForeignKey(Album, null=True) *)
  created_at : Z
}.

Record Comment := {
  comment_pk : nat;
  comment_text : string;
  comment_playlist : option nat;
  comment_owner : option nat
}.

(** The number the database backend and Django's converters hand on for an
    aggregate whose exact value is the rational [q].  [avg_decimal] is the
    [Decimal] of an [Avg] over a DecimalField: SQLite computes the mean in
    double precision and Django cuts it to 15 significant digits,
    PostgreSQL divides numerics to 16 significant digits or more.
    [avg_float] is [float(...)] of an [Avg] over an integer column: a
    double.  All that is taken for granted of either is what every backend
    gives: a greater mean never gets a smaller number, and a number of up to
    15 digits with at most one decimal place (an integer of up to 15
    digits, for the float) is handed on as it is. *)
Record Backend := {
  avg_decimal : Q → Q;
  avg_float : Q → Q;
  avg_decimal_monotone :
    ∀ q1 q2 : Q, (q1 <= q2)%Q → (avg_decimal q1 <= avg_decimal q2)%Q;
  avg_decimal_tenths :
    ∀ k : Z, (Z.abs k < 10 ^ 15)%Z → (avg_decimal (k # 10) == k # 10)%Q;
  avg_float_monotone :
    ∀ q1 q2 : Q, (q1 <= q2)%Q → (avg_float q1 <= avg_float q2)%Q;
  avg_float_integers :
    ∀ n : Z, (Z.abs n < 10 ^ 15)%Z → (avg_float (inject_Z n) == inject_Z n)%Q
}.

(** The tables, the backend that holds them, and the sequences of the
    primary keys of albums and songs.  A sequence never gives a key twice:
    [albums_sequence] and [songs_sequence] keep the greatest key of the rows
    deleted so far (0 when none was), the rows in the table carry the
    others. *)
Record Database := {
  backend : Backend;
  dottify_users : list DottifyUser;
  albums : list Album;
  albums_sequence : nat;
  songs : list Song;
  songs_sequence : nat;
  playlists : list Playlist;
  ratings : list Rating;
  comments : list Comment
}.

#[export] Instance Visibility_eq_dec : EqDecision Visibility.
Proof. solve_decision. Defined.

(** *** Queries *)

(** [DottifyUser.objects.get(user=user)]; [None] is [DoesNotExist].  The
    one-to-one field leaves at most one row per user. *)
Definition DottifyUser_objects_get_user (db : Database) (u : User) : option DottifyUser :=
  head (filter (λ d, du_user d = user_pk u) (dottify_users db)).

(** [get_object_or_404(DottifyUser, pk=pk)] *)
Definition DottifyUser_objects_get_pk (db : Database) (pk : nat) : option DottifyUser :=
  head (filter (λ d, du_pk d = pk) (dottify_users db)).

Definition Album_objects_get_pk (db : Database) (pk : nat) : option Album :=
  head (filter (λ a, album_pk a = pk) (albums db)).

Definition Song_objects_get_pk (db : Database) (pk : nat) : option Song :=
  head (filter (λ s, song_pk s = Some pk) (songs db)).

(** [album.artist_account == dottify_user]: model instances are equal when
    their primary keys are; [None] equals no instance. *)
Definition artist_account_is (album : Album) (dottify_user : DottifyUser) : bool :=
  bool_decide (artist_account album = Some (du_pk dottify_user)).

(** [song.album], following the foreign key. *)
Definition Song_album (db : Database) (song : Song) : option Album :=
  Album_objects_get_pk db (song_album song).

(** [album.rating_set] *)
Definition rating_set (db : Database) (album : Album) : list Rating :=
  filter (λ r, rating_album r = Some (album_pk album)) (ratings db).

(** [Song.objects.filter(album=album)] *)
Definition Song_objects_filter_album (db : Database) (album : nat) : list Song :=
  filter (λ r, song_album r = album) (songs db).

(** *** Song.save *)

(** What a save may raise: the database refuses the row
    ([IntegrityError]), or the instance names an album that is not stored
    ([Album.DoesNotExist], when [self.album] is fetched). *)
Inductive DatabaseError := IntegrityError | DoesNotExist.

(** The greatest position that is not NULL. *)
Definition max_position (ps : list (option nat)) : option nat :=
  foldr (λ p acc, match p, acc with
                  | Some n, Some m => Some (n `max` m)
                  | Some n, None => Some n
                  | None, _ => acc
                  end) None ps.

(** [.order_by("-position").values_list("position", flat=True).first()]:
    [None] on no row, else the position of the first row.  Whether NULL
    sorts before or after every number in descending order is the
    backend's choice ([nulls_first]: PostgreSQL and Oracle; not SQLite or
    MySQL). *)
Definition first_position_desc (nulls_first : bool) (ps : list (option nat)) : option nat :=
  if nulls_first && bool_decide (None ∈ ps) then None else max_position ps.

Definition set_position (s : Song) (p : option nat) : Song :=
  {| song_pk := song_pk s; song_title := song_title s; song_length := song_length s;
     position := p; song_album := song_album s |}.

Definition set_song_pk (s : Song) (pk : option nat) : Song :=
  {| song_pk := pk; song_title := song_title s; song_length := song_length s;
     position := position s; song_album := song_album s |}.

Definition set_songs (db : Database) (rows : list Song) : Database :=
  {| backend := backend db; dottify_users := dottify_users db;
     albums := albums db; albums_sequence := albums_sequence db;
     songs := rows; songs_sequence := songs_sequence db;
     playlists := playlists db; ratings := ratings db; comments := comments db |}.

(** UniqueConstraint(fields=["title", "album"]): does a row other than
    the one with primary key [pk] carry the same pair? *)
Definition unique_song_title_per_album_violated (rows : list Song) (s : Song) : bool :=
  bool_decide (Exists (λ r, song_pk r ≠ song_pk s ∧ song_title r = song_title s
                            ∧ song_album r = song_album s) rows).

(** The greatest primary key in the table, 0 in an empty one. *)
Definition greatest_song_pk (rows : list Song) : nat :=
  foldr (λ r acc, default 0 (song_pk r) `max` acc) 0 rows.

(** The next value of the primary-key sequence: one more than the greatest
    key the table holds or ever held. *)
Definition next_song_pk (db : Database) : nat :=
  S (songs_sequence db `max` greatest_song_pk (songs db)).

(** The foreign key [album] of the row [s] as it is written: the database
    checks it when the row is inserted and when an update changes it, and
    wants the album stored then. *)
Definition song_album_violated (db : Database) (s : Song) : bool :=
  negb (bool_decide (is_Some (Album_objects_get_pk db (song_album s)))
        || bool_decide (Exists (λ r, song_pk r = song_pk s ∧ song_album r = song_album s)
                          (songs db))).

(** [models.Model.save]: INSERT for an instance without primary key (or
    whose primary key matches no row), UPDATE otherwise; the database
    refuses a row that breaks the unique constraint or the foreign key. *)
Definition Model_save_song (db : Database) (s : Song) : DatabaseError + Song * Database :=
  let s' := match song_pk s with
            | Some _ => s
            | None => set_song_pk s (Some (next_song_pk db))
            end in
  if unique_song_title_per_album_violated (songs db) s' then inl IntegrityError
  else if song_album_violated db s' then inl IntegrityError
  else if bool_decide (Exists (λ r, song_pk r = song_pk s') (songs db))
  then inr (s', set_songs db
                  ((λ r, if bool_decide (song_pk r = song_pk s') then s' else r) <$> songs db))
  else inr (s', set_songs db (songs db ++ [s'])).

(** [Song.save].  The instance holds the key of its album, so
    [self.album] fetches the row, and raises when there is none. *)
Definition Song_save (nulls_first : bool) (db : Database) (self : Song)
    : DatabaseError + Song * Database :=
  let creating := bool_decide (song_pk self = None) in
  if creating && bool_decide (position self = None) then
    match Song_album db self with
    | None => inl DoesNotExist
    | Some album =>
        let last_pos :=
          first_position_desc nulls_first
            (position <$> Song_objects_filter_album db (album_pk album)) in
        Model_save_song db (set_position self (Some (default 0 last_pos + 1)))
    end
  else Model_save_song db self.

(** The fields a client can write, in the form (forms.py: 'title',
    'length', 'album') and in the API (serializers.py: 'id' read-only,
    'title', 'length', 'album'): neither lists 'position', which the model
    marks [editable=False]. *)
Record SongData := {
  data_title : string;
  data_length : nat;
  data_album : nat
}.

(** The unsaved instance that [form.save()] and the serializer's
    [Song.objects.create] build from client data. *)
Definition Song_of_data (d : SongData) : Song :=
  {| song_pk := None; song_title := data_title d; song_length := data_length d;
     position := None; song_album := data_album d |}.

Definition Song_objects_create (nulls_first : bool) (db : Database) (d : SongData)
    : DatabaseError + Song * Database :=
  Song_save nulls_first db (Song_of_data d).

End Models.
Export Models.

(** ** A backend for the sample data *)

Module Backends.

(** The integer nearest to [x], a tie going away from zero. *)
Definition round_half_away (x : Q) : Z :=
  if Qle_bool 0 x then Qfloor (x + (1 # 2)) else (- Qfloor (- x + (1 # 2)))%Z.

(** [q] at sixteen decimal places, as PostgreSQL's division of numerics
    gives a mean between 1 and 10000. *)
Definition numeric16 (q : Q) : Q :=
  round_half_away (q * inject_Z (10 ^ 16)) # 10000000000000000.

(** The backend of the examples: it keeps sixteen decimal places of a
    mean, and its float keeps as many. *)
Definition sixteen_places : Backend.
Proof.
  assert (Hfloor : ∀ k : Z, Qfloor (inject_Z k + (1 # 2)) = k).
  { abstract (intros k; unfold Qfloor, inject_Z, Qplus; cbn [Qnum Qden];
              change (Z.pos (1 * 2)) with 2%Z;
              replace (k * 2 + 1 * 1)%Z with (1 + k * 2)%Z by lia;
              rewrite Z.div_add by lia; reflexivity). }
  assert (Hwhole : ∀ (x : Q) (m : Z), (x == inject_Z m)%Q → round_half_away x = m).
  { abstract (intros x m Hx; unfold round_half_away; rewrite !Hx;
              destruct (Qle_bool 0 (inject_Z m));
              [apply Hfloor | rewrite <- inject_Z_opp, Hfloor; lia]). }
  assert (Hmonotone : ∀ q1 q2 : Q, (q1 <= q2)%Q → (numeric16 q1 <= numeric16 q2)%Q).
  { abstract (
      intros q1 q2 Hq; unfold numeric16, Qle; cbn [Qnum Qden];
      apply Z.mul_le_mono_nonneg_r; [lia|];
      assert (Hxy : (q1 * inject_Z (10 ^ 16) <= q2 * inject_Z (10 ^ 16))%Q)
        by (by apply Qmult_le_compat_r);
      revert Hxy; generalize (q1 * inject_Z (10 ^ 16))%Q, (q2 * inject_Z (10 ^ 16))%Q;
      intros x y Hxy; unfold round_half_away;
      destruct (Qle_bool 0 x) eqn:Hx, (Qle_bool 0 y) eqn:Hy;
      [ apply Qfloor_resp_le; by apply Qplus_le_l
      | apply Qle_bool_iff in Hx;
        assert (Qle_bool 0 y = true) by (apply Qle_bool_iff; by apply Qle_trans with x);
        congruence
      | apply Qle_bool_iff in Hy;
        assert (x <= 0)%Q
          by (apply Qlt_le_weak, Qnot_le_lt; intros Hle; apply Qle_bool_iff in Hle;
              congruence);
        assert (0 ≤ Qfloor (y + (1 # 2)))%Z
          by (change 0%Z with (Qfloor 0); apply Qfloor_resp_le;
              apply Qle_trans with y; [done|];
              rewrite <- (Qplus_0_r y) at 1; by apply Qplus_le_r);
        assert (0 ≤ Qfloor (- x + (1 # 2)))%Z
          by (change 0%Z with (Qfloor 0); apply Qfloor_resp_le;
              apply Qle_trans with (- x)%Q;
              [ by apply (Qopp_le_compat x 0)
              | rewrite <- (Qplus_0_r (- x)) at 1; by apply Qplus_le_r ]);
        lia
      | apply Z.opp_le_mono; rewrite !Z.opp_involutive;
        apply Qfloor_resp_le, Qplus_le_l; by apply Qopp_le_compat ]). }
  refine {| avg_decimal := numeric16; avg_float := numeric16;
            avg_decimal_monotone := Hmonotone; avg_float_monotone := Hmonotone |}.
  - abstract (intros k _; unfold numeric16;
              rewrite (Hwhole _ (k * 10 ^ 15)%Z); unfold Qeq; cbn [Qnum Qden inject_Z Qmult];
              lia).
  - abstract (intros n _; unfold numeric16;
              rewrite (Hwhole _ (n * 10 ^ 16)%Z); unfold Qeq; cbn [Qnum Qden inject_Z Qmult];
              lia).
Defined.

End Backends.

(** ** django.utils.text *)

Module Text.

Definition code (c : ascii) : N := N_of_ascii c.

Definition in_range (lo hi : N) (c : ascii) : bool :=
  ((lo <=? code c) && (code c <=? hi))%N.

Definition lower_char (c : ascii) : ascii :=
  if in_range 65 90 c then ascii_of_N (code c + 32) else c.

(** [\w] on text that is ASCII already *)
Definition is_word (c : ascii) : bool :=
  in_range 48 57 c || in_range 65 90 c || in_range 97 122 c || in_range 95 95 c.

(** [\s] of a str pattern, below 128: tab to carriage return, the four
    separators 28 to 31, and the space *)
Definition is_space (c : ascii) : bool :=
  in_range 9 13 c || in_range 28 32 c.

Definition is_hyphen (c : ascii) : bool := in_range 45 45 c.

Fixpoint map_chars (f : ascii → ascii) (s : string) : string :=
  match s with
  | EmptyString => EmptyString
  | String c s' => String (f c) (map_chars f s')
  end.

Fixpoint filter_chars (p : ascii → bool) (s : string) : string :=
  match s with
  | EmptyString => EmptyString
  | String c s' => if p c then String c (filter_chars p s') else filter_chars p s'
  end.

Fixpoint all_chars (p : ascii → bool) (s : string) : bool :=
  match s with
  | EmptyString => true
  | String c s' => p c && all_chars p s'
  end.

(** [str.lower] *)
Definition lower (s : string) : string := map_chars lower_char s.

(** [re.sub(r"[-\s]+", "-", value)]; [in_run] says the previous
    character was part of the run being replaced. *)
Fixpoint collapse_runs (in_run : bool) (s : string) : string :=
  match s with
  | EmptyString => EmptyString
  | String c s' =>
      if is_hyphen c || is_space c then
        if in_run then collapse_runs true s'
        else String "-" (collapse_runs true s')
      else String c (collapse_runs false s')
  end.

Fixpoint lstrip (p : ascii → bool) (s : string) : string :=
  match s with
  | EmptyString => EmptyString
  | String c s' => if p c then lstrip p s' else s
  end.

Fixpoint rstrip (p : ascii → bool) (s : string) : string :=
  match s with
  | EmptyString => EmptyString
  | String c s' =>
      match rstrip p s' with
      | EmptyString => if p c then EmptyString else String c EmptyString
      | r => String c r
      end
  end.

(** [value.strip("-_")] *)
Definition strip_hyphen_underscore (s : string) : string :=
  let p c := is_hyphen c || in_range 95 95 c in
  rstrip p (lstrip p s).

(** [slugify(value)] with [allow_unicode=False], on ASCII text:
<<
    value = normalize("NFKD", value).encode("ascii", "ignore").decode("ascii")
    value = re.sub(r"[^\w\s-]", "", value.lower())
    return re.sub(r"[-\s]+", "-", value).strip("-_")
>>
    The first line leaves ASCII text as it is; here it drops every byte
    above 127, the compatibility decomposition of other characters is not
    modelled.  The properties of the views below hold for any function in
    the place of [slugify]; this one serves to evaluate them. *)
Definition slugify_ascii (value : string) : string :=
  let value := filter_chars (in_range 0 127) value in
  let value := filter_chars (λ c, is_word c || is_space c || is_hyphen c) (lower value) in
  strip_hyphen_underscore (collapse_runs false value).

(** Text of ASCII characters only: there [slugify_ascii] is Django's
    [slugify]. *)
Definition is_ascii (s : string) : bool := all_chars (in_range 0 127) s.

(** Does [needle] occur in [hay]? *)
Fixpoint contains (needle hay : string) : bool :=
  String.prefix needle hay ||
  match hay with
  | EmptyString => false
  | String _ hay' => contains needle hay'
  end.

(** The lookup [field__icontains=query]: a substring match that ignores
    the case of ASCII letters. *)
Definition icontains (query field : string) : bool :=
  contains (lower query) (lower field).

End Text.
Export Text.

(** ** urls.py *)

Module Urls.

(** The named routes the views redirect to. *)
Inductive Url :=
| url_home                                     (* '' *)
| url_user_detail_slug (pk : nat) (slug : string). (* 'users/<int:pk>/<slug:slug>/' *)

(** The path converter [slug] matches [[-a-zA-Z0-9_]+]. *)
Definition SlugConverter_matches (s : string) : bool :=
  negb (bool_decide (s = EmptyString)) && all_chars (λ c, is_hyphen c || is_word c) s.

(** [reverse('user-detail-slug', kwargs={'pk': pk, 'slug': slug})]: the
    route is the only one of that name; the candidate path must match its
    pattern again, else [NoReverseMatch] ([None]). *)
Definition reverse_user_detail_slug (pk : nat) (slug : string) : option Url :=
  if SlugConverter_matches slug then Some (url_user_detail_slug pk slug) else None.

End Urls.
Export Urls.

(** ** views.py *)

Module Views.

Inductive Exception := NoReverseMatch.

(** What a read view answers; [C] is the template context (the
    serialized data, in the API). *)
Inductive Response (C : Type) :=
| HttpResponseOK (context : C)          (* 200: render(...), Response(data) *)
| HttpResponseRedirect (to : Url)       (* 302 *)
| HttpResponse401 (content : string)    (* HttpResponse(..., status=401) *)
| HttpResponseNotFound                  (* Http404 *)
| ServerError (e : Exception).          (* an exception nothing catches: 500 *)
Arguments HttpResponseOK {C}.
Arguments HttpResponseRedirect {C}.
Arguments HttpResponse401 {C}.
Arguments HttpResponseNotFound {C}.
Arguments ServerError {C}.

Definition status_code {C} (r : Response C) : nat :=
  match r with
  | HttpResponseOK _ => 200
  | HttpResponseRedirect _ => 302
  | HttpResponse401 _ => 401
  | HttpResponseNotFound => 404
  | ServerError _ => 500
  end.

(** *** HomeView *)

Definition HomeView_get_queryset (db : Database) (user : RequestUser) : list Album :=
  match user with
  | AnonymousUser => albums db
  | Authenticated u =>
      if groups_filter_exists u "DottifyAdmin" then albums db
      else if groups_filter_exists u "Artist" then
        match DottifyUser_objects_get_user db u with
        | Some dottify_user =>
            filter (λ a, artist_account a = Some (du_pk dottify_user)) (albums db)
        | None => []
        end
      else []
  end.

(** The playlists of [HomeView.get_context_data]. *)
Definition HomeView_playlists (db : Database) (user : RequestUser) : list Playlist :=
  match user with
  | AnonymousUser => filter (λ p, visibility p = PUBLIC) (playlists db)
  | Authenticated u =>
      if groups_filter_exists u "DottifyAdmin" then playlists db
      else
        match DottifyUser_objects_get_user db u with
        | Some dottify_user => filter (λ p, owner p = du_pk dottify_user) (playlists db)
        | None => []
        end
  end.

(** *** album_search *)

Record SearchContext := {
  search_albums : list Album;
  search_query : string;
  search_total_results : nat
}.

(** [q] is [request.GET.get('q')], [None] when the parameter is absent. *)
Definition album_search (db : Database) (user : RequestUser) (q : option string)
    : Response SearchContext :=
  if negb (is_authenticated user) then
    HttpResponse401 "You must be logged in to view this page."
  else
    let query := default EmptyString q in
    let albums :=
      if bool_decide (query ≠ EmptyString)
      then filter (λ a, icontains query (title a) = true) (albums db)
      else [] in
    HttpResponseOK {| search_albums := albums; search_query := query;
                      search_total_results := length albums |}.

(** *** AlbumDetailView *)

(** [Avg]: NULL ([None]) over no row, else the number the backend has
    for the mean ([number] is [avg_decimal] or [avg_float] of the
    backend). *)
Definition Avg (number : Q → Q) (values : list Q) : option Q :=
  match values with
  | [] => None
  | _ => Some (number (foldr Qplus 0%Q values / inject_Z (Z.of_nat (length values)))%Q)
  end.

(** [x or 0.0]: the default replaces [None] and a zero alike. *)
Definition or_zero (x : option Q) : Q :=
  match x with
  | Some q => if Qeq_bool q 0 then 0%Q else q
  | None => 0%Q
  end.

(** The decimal a [stars] column holds. *)
Definition stars_value (r : Rating) : Q := (stars r # 10)%Q.

(** [timedelta(days=n)], in microseconds *)
Definition timedelta_days (n : Z) : Z := (n * 86400000000)%Z.

(** The two figures the context shows (each formatted with [:.1f]); the
    song list of the context is left out. *)
Record AlbumDetailContext := {
  detail_album : Album;
  all_time_avg : Q;
  recent_avg : Q
}.

Definition AlbumDetailView_get_context_data (db : Database) (now : Z) (object : Album)
    : AlbumDetailContext :=
  let all_time_avg :=
    or_zero (Avg (avg_decimal (backend db)) (stars_value <$> rating_set db object)) in
  let sixty_days_ago := (now - timedelta_days 60)%Z in
  let recent_avg :=
    or_zero (Avg (avg_decimal (backend db))
               (stars_value <$>
                  filter (λ r, (sixty_days_ago ≤ created_at r)%Z) (rating_set db object))) in
  {| detail_album := object; all_time_avg := all_time_avg; recent_avg := recent_avg |}.

(** [SingleObjectMixin.get_object] with a [pk] in the route: the slug is
    looked at only when there is no [pk] or [query_pk_and_slug] is set,
    which no view of the application does. *)
Definition get_object {A} (get_pk : nat → option A) (pk : nat) (slug : option string)
    : option A :=
  get_pk pk.

(** Routes 'albums/<int:pk>/' ([slug] is [None]) and
    'albums/<int:pk>/<slug:slug>/'. *)
Definition AlbumDetailView (db : Database) (now : Z) (pk : nat) (slug : option string)
    : Response AlbumDetailContext :=
  match get_object (Album_objects_get_pk db) pk slug with
  | None => HttpResponseNotFound
  | Some object => HttpResponseOK (AlbumDetailView_get_context_data db now object)
  end.

(** *** Mutating views *)

Definition IsArtistOrAdminMixin_test_func (u : User) : bool :=
  groups_filter_in_exists u ["Artist"; "DottifyAdmin"].

Definition AlbumCreateView (user : RequestUser) : Access :=
  LoginRequiredMixin_dispatch user (λ u,
    UserPassesTestMixin_dispatch u (Some (IsArtistOrAdminMixin_test_func u)) Granted).

Definition AlbumUpdateView_test_func (db : Database) (u : User) (pk : nat) : option bool :=
  album ← get_object (Album_objects_get_pk db) pk None;
  Some (if groups_filter_exists u "DottifyAdmin" then true
        else if groups_filter_exists u "Artist" then
          match DottifyUser_objects_get_user db u with
          | Some dottify_user => if artist_account_is album dottify_user then true else false
          | None => false
          end
        else false).

Definition AlbumUpdateView (db : Database) (user : RequestUser) (pk : nat) : Access :=
  LoginRequiredMixin_dispatch user (λ u,
    UserPassesTestMixin_dispatch u (AlbumUpdateView_test_func db u pk) Granted).

Definition AlbumDeleteView_test_func (db : Database) (u : User) (pk : nat) : option bool :=
  album ← get_object (Album_objects_get_pk db) pk None;
  Some (if groups_filter_exists u "DottifyAdmin" then true
        else
          match DottifyUser_objects_get_user db u with
          | Some dottify_user => if artist_account_is album dottify_user then true else false
          | None => false
          end).

Definition AlbumDeleteView (db : Database) (user : RequestUser) (pk : nat) : Access :=
  LoginRequiredMixin_dispatch user (λ u,
    UserPassesTestMixin_dispatch u (AlbumDeleteView_test_func db u pk) Granted).

(** [SongCreateView.form_valid] on a valid form whose cleaned album is
    [album]; [Granted] stands for the call of [super().form_valid(form)],
    which saves the song. *)
Definition SongCreateView_form_valid (db : Database) (u : User) (album : Album) : Access :=
  if groups_filter_exists u "Artist" then
    match DottifyUser_objects_get_user db u with
    | Some dottify_user =>
        if negb (artist_account_is album dottify_user)
        then HttpResponseForbidden "You can only add songs to your own albums."
        else Granted
    | None => HttpResponseForbidden "You don't have a Dottify user account."
    end
  else Granted.

Definition SongCreateView (db : Database) (user : RequestUser) (album : Album) : Access :=
  LoginRequiredMixin_dispatch user (λ u,
    UserPassesTestMixin_dispatch u (Some (IsArtistOrAdminMixin_test_func u))
      (SongCreateView_form_valid db u album)).

(** [SongUpdateView.test_func] and [SongDeleteView.test_func] have the
    same body.  The foreign key keeps the album row of a stored song. *)
Definition SongUpdateView_test_func (db : Database) (u : User) (pk : nat) : option bool :=
  song ← get_object (Song_objects_get_pk db) pk None;
  Some (if groups_filter_exists u "DottifyAdmin" then true
        else
          match DottifyUser_objects_get_user db u with
          | Some dottify_user =>
              match Song_album db song with
              | Some album => if artist_account_is album dottify_user then true else false
              | None => false
              end
          | None => false
          end).

Definition SongDeleteView_test_func := SongUpdateView_test_func.

Definition SongUpdateView (db : Database) (user : RequestUser) (pk : nat) : Access :=
  LoginRequiredMixin_dispatch user (λ u,
    UserPassesTestMixin_dispatch u (SongUpdateView_test_func db u pk) Granted).

Definition SongDeleteView (db : Database) (user : RequestUser) (pk : nat) : Access :=
  LoginRequiredMixin_dispatch user (λ u,
    UserPassesTestMixin_dispatch u (SongDeleteView_test_func db u pk) Granted).

(** *** user_detail *)

Record UserDetailContext := {
  detail_dottify_user : DottifyUser;
  detail_playlists : list Playlist
}.

(** [redirect('user-detail-slug', pk=pk, slug=slug)]: the name has neither
    a slash nor a dot, so a failed reversal is raised again. *)
Definition redirect_user_detail_slug {C} (pk : nat) (slug : string) : Response C :=
  match reverse_user_detail_slug pk slug with
  | Some url => HttpResponseRedirect url
  | None => ServerError NoReverseMatch
  end.

Section UserDetail.
(** [django.template.defaultfilters.slugify] *)
Variable slugify : string → string.

(** Routes 'users/<int:pk>/' ([slug] is [None]) and
    'users/<int:pk>/<slug:slug>/'. *)
Definition user_detail (db : Database) (pk : nat) (slug : option string)
    : Response UserDetailContext :=
  match DottifyUser_objects_get_pk db pk with
  | None => HttpResponseNotFound
  | Some dottify_user =>
      let correct_slug := slugify (display_name dottify_user) in
      if bool_decide (slug ≠ Some correct_slug) then
        redirect_user_detail_slug pk correct_slug
      else
        let playlists := filter (λ p, owner p = du_pk dottify_user) (playlists db) in
        HttpResponseOK {| detail_dottify_user := dottify_user;
                          detail_playlists := playlists |}
  end.
End UserDetail.

(** *** PlaylistDetailView *)

Record PlaylistDetailContext := {
  detail_playlist : Playlist;
  detail_comments : list Comment
}.

Definition Playlist_objects_get_pk (rows : list Playlist) (pk : nat) : option Playlist :=
  head (filter (λ p, playlist_pk p = pk) rows).

Definition PlaylistDetailView (db : Database) (pk : nat) : Response PlaylistDetailContext :=
  match get_object (Playlist_objects_get_pk (playlists db)) pk None with
  | None => HttpResponseNotFound
  | Some object =>
      HttpResponseOK
        {| detail_playlist := object;
           detail_comments :=
             filter (λ c, comment_playlist c = Some (playlist_pk object)) (comments db) |}
  end.

End Views.
Export Views.

(** ** api_views.py *)

Module ApiViews.

(** The actions a router maps to a viewset; those on one object carry the
    [pk] of the route. *)
Inductive Action :=
| list_
| create
| retrieve (pk : nat)
| update (pk : nat)
| partial_update (pk : nat)
| destroy (pk : nat).

(** A permission class, by its [has_permission(request, view)]. *)
Definition Permission := RequestUser → Action → bool.

Definition AllowAny : Permission := λ _ _, true.

(** No viewset of api_views.py sets [permission_classes]; each takes
    [api_settings.DEFAULT_PERMISSION_CLASSES], which rest_framework ships
    as [AllowAny]. *)
Definition DEFAULT_PERMISSION_CLASSES : list Permission := [AllowAny].

(** [APIView.check_permissions] *)
Definition check_permissions (permission_classes : list Permission)
    (user : RequestUser) (action : Action) : bool :=
  forallb (λ p, p user action) permission_classes.

(** [ModelViewSet]: [initial()] checks the permissions, then the action
    on one object fetches it with [get_object()]. *)
Definition ModelViewSet {A} (permission_classes : list Permission)
    (get_pk : nat → option A) (user : RequestUser) (action : Action) : Access :=
  if negb (check_permissions permission_classes user action) then PermissionDenied
  else
    match action with
    | list_ | create => Granted
    | retrieve pk | update pk | partial_update pk | destroy pk =>
        match get_pk pk with
        | Some _ => Granted
        | None => Http404
        end
    end.


Definition SongViewSet (db : Database) : RequestUser → Action → Access :=
  ModelViewSet DEFAULT_PERMISSION_CLASSES (Song_objects_get_pk db).

(** *** PlaylistViewSet *)

Definition PlaylistViewSet_get_queryset (db : Database) : list Playlist :=
  filter (λ p, visibility p = PUBLIC) (playlists db).

(** [ReadOnlyModelViewSet.retrieve]:
    [get_object_or_404(self.filter_queryset(self.get_queryset()), pk=pk)];
    the permission classes are the default ones, which refuse no [user]. *)
Definition PlaylistViewSet_retrieve (db : Database) (user : RequestUser) (pk : nat)
    : Response Playlist :=
  match Playlist_objects_get_pk (PlaylistViewSet_get_queryset db) pk with
  | Some instance => HttpResponseOK instance
  | None => HttpResponseNotFound
  end.

End ApiViews.
Export ApiViews.

(** ** The vocabulary of the specification *)

Module Spec.

Inductive Role := Guest | Member | Artist | Admin.

(** The role of a principal: the views never compute it, they test the
    groups one by one. *)
Definition role_of (user : RequestUser) : Role :=
  match user with
  | AnonymousUser => Guest
  | Authenticated u =>
      if groups_filter_exists u "DottifyAdmin" then Admin
      else if groups_filter_exists u "Artist" then Artist
      else Member
  end.

(** The profile of a principal. *)
Definition profile_of (db : Database) (user : RequestUser) : option DottifyUser :=
  match user with
  | AnonymousUser => None
  | Authenticated u => DottifyUser_objects_get_user db u
  end.

(** The mutating actions on albums and songs. *)
Inductive Mutation :=
| AlbumCreate
| AlbumUpdate (pk : nat)
| AlbumDelete (pk : nat)
| SongCreate (album : Album)
| SongUpdate (pk : nat)
| SongDelete (pk : nat).

(** Entry points: the browsable views ... *)
Definition browsable (db : Database) (user : RequestUser) (m : Mutation) : Access :=
  match m with
  | AlbumCreate => AlbumCreateView user
  | AlbumUpdate pk => AlbumUpdateView db user pk
  | AlbumDelete pk => AlbumDeleteView db user pk
  | SongCreate album => SongCreateView db user album
  | SongUpdate pk => SongUpdateView db user pk
  | SongDelete pk => SongDeleteView db user pk
  end.


(** The ownership chain: the [artist_account] of the album a mutation is
    aimed at, through the song's album for a song; [None] when the
    mutation names no stored album. *)
Definition target_account (db : Database) (m : Mutation) : option (option nat) :=
  match m with
  | AlbumCreate => None
  | AlbumUpdate pk | AlbumDelete pk => artist_account <$> Album_objects_get_pk db pk
  | SongCreate album => Some (artist_account album)
  | SongUpdate pk | SongDelete pk =>
      song ← Song_objects_get_pk db pk;
      artist_account <$> Song_album db song
  end.


(** The principal's profile is the owner the chain ends in. *)
Definition owns (db : Database) (user : RequestUser) (m : Mutation) : Prop :=
  ∃ d, profile_of db user = Some d ∧ target_account db m = Some (Some (du_pk d)).

(** The mean of [values] is [m]: [m] times their number is their sum. *)
Definition is_mean (values : list Q) (m : Q) : Prop :=
  (m * inject_Z (Z.of_nat (length values)) == foldr Qplus 0 values)%Q.

End Spec.
Export Spec.

(** ** Sample data, after the fixtures of test_views.py *)

Module Fixtures.

Definition megumin : User :=
  {| user_pk := 1; username := "megumin"; groups := ∅ |}.

Definition megumin_artist : User :=
  {| user_pk := 1; username := "megumin"; groups := {["Artist"]} |}.

Definition kazuma : User :=
  {| user_pk := 2; username := "kazuma"; groups := ∅ |}.

Definition aqua : User :=
  {| user_pk := 3; username := "aqua"; groups := {["Artist"; "DottifyAdmin"]} |}.

Definition explosion_profile : DottifyUser :=
  {| du_pk := 1; du_user := 1; display_name := "explosion!!!" |}.

Definition kazuma_profile : DottifyUser :=
  {| du_pk := 2; du_user := 2; display_name := "Kazuma" |}.

Definition aqua_profile : DottifyUser :=
  {| du_pk := 3; du_user := 3; display_name := "!!!" |}.

Definition explosion : Album :=
  {| album_pk := 1; cover_image := Some "no_cover.jpg"; title := "Explosion!!!";
     artist_name := "Megumin"; artist_account := Some 1; retail_price := 299;
     format := Some SNGL; release_date := 20089; slug := "explosion" |}.

Definition chunchunmaru : Song :=
  {| song_pk := Some 1; song_title := "Chunchunmaru"; song_length := 281;
     position := Some 1; song_album := 1 |}.

Definition bakuretsu : Song :=
  {| song_pk := Some 2; song_title := "Bakuretsu Magic"; song_length := 540;
     position := Some 2; song_album := 1 |}.

Definition degen (v : Visibility) : Playlist :=
  {| playlist_pk := 1; name := "degen"; playlist_created_at := 0;
     playlist_songs := []; visibility := v; owner := 1 |}.

Definition recent_rating (now : Z) : Rating :=
  {| rating_pk := 1; stars := 50; rating_album := Some 1; created_at := now |}.

Definition old_rating (now : Z) : Rating :=
  {| rating_pk := 2; stars := 10; rating_album := Some 1;
     created_at := (now - timedelta_days 70)%Z |}.

(** The database the tests set up, at time [now], with the playlist at
    visibility [v]. *)
Definition db (now : Z) (v : Visibility) : Database :=
  {| backend := Backends.sixteen_places;
     dottify_users := [explosion_profile; kazuma_profile; aqua_profile];
     albums := [explosion]; albums_sequence := 0;
     songs := [chunchunmaru; bakuretsu]; songs_sequence := 0;
     playlists := [degen v];
     ratings := [recent_rating now; old_rating now];
     comments := [{| comment_pk := 1; comment_text := "typeshit typeshit 67!";
                     comment_playlist := Some 1; comment_owner := Some 1 |}] |}.

Definition today : Z := 1762128000000000.

(** Three songs for an album of key 2. *)
Definition tornado : SongData :=
  {| data_title := "Tornado"; data_length := 200; data_album := 2 |}.
Definition inferno : SongData :=
  {| data_title := "Inferno"; data_length := 215; data_album := 2 |}.
Definition lightning : SongData :=
  {| data_title := "Lightning"; data_length := 190; data_album := 2 |}.

End Fixtures.

(** ** validators.py *)

Module Validators.

(** A validator returns ([Valid]) or raises [ValidationError]. *)
Inductive Validation :=
| Valid
| ValidationError (message : string).

(** Dates are day numbers, [today] is [date.today()], [None] is Python's
    [None]. *)
Definition validate_release_date_within_6_months (today : Z) (value : option Z)
    : Validation :=
  match value with
  | None => Valid
  | Some value =>
      let six_months := 180%Z in
      if bool_decide (today + six_months < value)%Z
      then ValidationError "Release date cannot be more than 6 months in the future."
      else Valid
  end.

(** *** decimal.Decimal

    A decimal is a rational; NaN and the infinities never reach a validator
    of a DecimalField.  Comparisons are exact.  The result of an arithmetic
    operation is rounded to the precision of the context, 28 significant
    digits by default, a tie going to the even digit. *)

(** [int(d)] of a decimal: the digits after the point are cut off. *)
Definition Decimal_int (d : Q) : Z := (Qnum d ÷ Z.pos (Qden d))%Z.

(** The integer nearest to [x], a tie going to the even one
    (ROUND_HALF_EVEN). *)
Definition round_half_even (x : Q) : Z :=
  let f := Qfloor x in
  match (x - inject_Z f ?= 1 # 2)%Q with
  | Lt => f
  | Eq => if Z.even f then f else (f + 1)%Z
  | Gt => (f + 1)%Z
  end.

(** The search for the exponent of the leading digit of [q], from the
    candidate [e]. *)
Fixpoint adjusted_from (fuel : nat) (q : Q) (e : Z) : Z :=
  match fuel with
  | O => e
  | S fuel =>
      if negb (Qle_bool (10 ^ e) q) then adjusted_from fuel q (e - 1)
      else if Qle_bool (10 ^ (e + 1)) q then adjusted_from fuel q (e + 1)
      else e
  end.

(** [Decimal.adjusted()], for [q] above zero: the exponent [e] of its
    leading digit, 10^e <= q < 10^(e+1).  The exponent is no farther from 0
    than the numerator and the denominator have binary digits. *)
Definition Decimal_adjusted (q : Q) : Z :=
  adjusted_from (Z.to_nat (Z.log2 (Qnum q) + Z.log2 (Z.pos (Qden q)) + 2)) q 0.

(** The default context: [prec] and [Etiny() = Emin - prec + 1]. *)
Definition Context_prec : Z := 28.
Definition Context_Etiny : Z := -1000026.

(** [Decimal._fix]: the digits of [x] below the [prec]-th significant one
    (and below the exponent [Etiny]) are rounded away.  Magnitudes of
    10^Emax and more, which overflow, are not modelled. *)
Definition Decimal_fix (x : Q) : Q :=
  let x := Qred x in
  if Qeq_bool x 0 then 0%Q
  else
    let exp_min := Z.max (Decimal_adjusted (Qabs x) - (Context_prec - 1)) Context_Etiny in
    (inject_Z (round_half_even (x * 10 ^ (- exp_min))) * 10 ^ exp_min)%Q.

(** [a * b] on decimals *)
Definition Decimal_mul (a b : Q) : Q := Decimal_fix (a * b).

Definition validate_stars_half_step (value : Q) : Validation :=
  if negb (Qle_bool 0 value) || negb (Qle_bool value 5)
  then ValidationError "Stars must be between 0.0 and 5.0."
  else
    let doubled := Decimal_mul value 2 in
    if negb (Qeq_bool doubled (inject_Z (Decimal_int doubled)))
    then ValidationError "Stars must be in increments of 0.5 (e.g., 2.5, 3.0, 4.5)."
    else Valid.

(** The vocabulary of the properties: [e] is the exponent of the leading
    digit of [q]; [value] has no more than 27 digits after the point. *)
Definition leading_digit (q : Q) (e : Z) : Prop :=
  (10 ^ e <= q)%Q ∧ (q < 10 ^ (e + 1))%Q.

Definition decimal_places_27 (value : Q) : Prop :=
  ∃ c : Z, (value == c # 1000000000000000000000000000)%Q.

End Validators.
Export Validators.

(** ** models.py: Album.save, the default ordering of songs, deletion *)

Module Persistence.

(** The fields a client can write, in the form (forms.py) and in the API
    (serializers.py; 'id', 'slug' and 'song_set' are read-only there):
    neither lists 'artist_account'. *)
Record AlbumData := {
  data_cover_image : option string;
  data_album_title : string;
  data_artist_name : string;
  data_retail_price : Z;
  data_format : option Format;
  data_release_date : Z
}.

Definition set_slug (a : Album) (s : string) : Album :=
  {| album_pk := album_pk a; cover_image := cover_image a; title := title a;
     artist_name := artist_name a; artist_account := artist_account a;
     retail_price := retail_price a; format := format a;
     release_date := release_date a; slug := s |}.

Definition set_albums (db : Database) (rows : list Album) : Database :=
  {| backend := backend db; dottify_users := dottify_users db;
     albums := rows; albums_sequence := albums_sequence db;
     songs := songs db; songs_sequence := songs_sequence db;
     playlists := playlists db; ratings := ratings db; comments := comments db |}.

#[export] Instance Format_eq_dec : EqDecision Format.
Proof. solve_decision. Defined.

(** UniqueConstraint(fields=["title", "artist_name", "format"]): does
    another row carry the same triple?  [format] is nullable; whether two
    NULLs make the same triple is the backend's choice ([nulls_distinct]:
    they do not in SQLite, PostgreSQL and MySQL). *)
Definition unique_album_title_artist_format_violated (nulls_distinct : bool)
    (rows : list Album) (a : Album) : bool :=
  bool_decide (Exists (λ r, album_pk r ≠ album_pk a ∧ title r = title a
                            ∧ artist_name r = artist_name a
                            ∧ format r = format a
                            ∧ (is_Some (format a) ∨ nulls_distinct = false)) rows).

(** The greatest primary key in the table, 0 in an empty one. *)
Definition greatest_album_pk (rows : list Album) : nat :=
  foldr (λ r acc, album_pk r `max` acc) 0 rows.

(** The next value of the primary-key sequence: one more than the greatest
    key the table holds or ever held. *)
Definition next_album_pk (db : Database) : nat :=
  S (albums_sequence db `max` greatest_album_pk (albums db)).

(** The foreign key [artist_account] of the row [a] as it is written:
    NULL, or checked like the album of a song. *)
Definition album_artist_account_violated (db : Database) (a : Album) : bool :=
  match artist_account a with
  | None => false
  | Some k =>
      negb (bool_decide (is_Some (DottifyUser_objects_get_pk db k))
            || bool_decide (Exists (λ r, album_pk r = album_pk a
                                         ∧ artist_account r = artist_account a)
                              (albums db)))
  end.

Section AlbumSave.
(** [django.template.defaultfilters.slugify] *)
Variable slugify : string → string.
Variable nulls_distinct : bool.

(** [Album.save]: the slug is set from the title ([self.title or ""] is
    the title, a string), then [models.Model.save] updates the row of that
    primary key or inserts one. *)
Definition Album_save (db : Database) (self : Album) : DatabaseError + Album * Database :=
  let self := set_slug self (slugify (title self)) in
  if unique_album_title_artist_format_violated nulls_distinct (albums db) self
  then inl IntegrityError
  else if album_artist_account_violated db self then inl IntegrityError
  else if bool_decide (Exists (λ r, album_pk r = album_pk self) (albums db))
  then inr (self, set_albums db
                    ((λ r, if bool_decide (album_pk r = album_pk self) then self else r)
                       <$> albums db))
  else inr (self, set_albums db (albums db ++ [self])).

(** The instance [form.save()] and the serializer's [Album.objects.create]
    build from client data; it gets the next key of the sequence, so that
    [Album_save] inserts it.  [artist_account] keeps its default, NULL. *)
Definition Album_of_data (pk : nat) (d : AlbumData) : Album :=
  {| album_pk := pk; cover_image := data_cover_image d; title := data_album_title d;
     artist_name := data_artist_name d; artist_account := None;
     retail_price := data_retail_price d; format := data_format d;
     release_date := data_release_date d; slug := EmptyString |}.

Definition Album_objects_create (db : Database) (d : AlbumData)
    : DatabaseError + Album * Database :=
  Album_save db (Album_of_data (next_album_pk db) d).
End AlbumSave.

(** *** Meta.ordering = ["position", "id"] *)

(** The sort key of a song in ascending order: the group of its position
    (NULL after every number when the backend takes NULL for the largest
    value, before otherwise), the position, the id. *)
Definition Song_ordering_key (nulls_largest : bool) (s : Song) : nat * nat * nat :=
  match position s with
  | Some n => (if nulls_largest then 0 else 1, n, default 0 (song_pk s))
  | None => (if nulls_largest then 1 else 0, 0, default 0 (song_pk s))
  end.

Definition key_le (k1 k2 : nat * nat * nat) : Prop :=
  (k1.1.1 < k2.1.1
   ∨ (k1.1.1 = k2.1.1 ∧ (k1.1.2 < k2.1.2 ∨ (k1.1.2 = k2.1.2 ∧ k1.2 ≤ k2.2))))%nat.

Definition Song_le (nulls_largest : bool) (s1 s2 : Song) : Prop :=
  key_le (Song_ordering_key nulls_largest s1) (Song_ordering_key nulls_largest s2).

#[export] Instance key_le_dec k1 k2 : Decision (key_le k1 k2).
Proof. unfold key_le. apply _. Defined.

#[export] Instance Song_le_dec nulls_largest s1 s2 : Decision (Song_le nulls_largest s1 s2).
Proof. unfold Song_le. apply _. Defined.

(** A queryset of songs without [order_by]: the rows in the default
    ordering. *)
Definition Song_default_ordering (nulls_largest : bool) (rows : list Song) : list Song :=
  merge_sort (Song_le nulls_largest) rows.

(** *** Deletion *)

Definition set_playlist_songs (p : Playlist) (ks : list nat) : Playlist :=
  {| playlist_pk := playlist_pk p; name := name p;
     playlist_created_at := playlist_created_at p; playlist_songs := ks;
     visibility := visibility p; owner := owner p |}.

(** [album.delete()]: the row goes, and with it what [on_delete=CASCADE]
    ties to it: its songs, its ratings, and the entries of the deleted songs
    in the playlists.  The sequences keep the keys that go. *)
Definition Album_delete (db : Database) (pk : nat) : Database :=
  let deleted_songs := filter (λ s, song_album s = pk) (songs db) in
  {| backend := backend db;
     dottify_users := dottify_users db;
     albums := filter (λ a, album_pk a ≠ pk) (albums db);
     albums_sequence := albums_sequence db `max` greatest_album_pk (albums db);
     songs := filter (λ s, song_album s ≠ pk) (songs db);
     songs_sequence := songs_sequence db `max` greatest_song_pk (songs db);
     playlists :=
       (λ p, set_playlist_songs p
               (filter (λ k, Some k ∉ song_pk <$> deleted_songs) (playlist_songs p)))
         <$> playlists db;
     ratings := filter (λ r, rating_album r ≠ Some pk) (ratings db);
     comments := comments db |}.

(** [AlbumDeleteView] on POST: the mixins decide, then [form_valid]
    deletes the object. *)
Definition AlbumDeleteView_post (db : Database) (user : RequestUser) (pk : nat)
    : Access * Database :=
  match AlbumDeleteView db user pk with
  | Granted => (Granted, Album_delete db pk)
  | refused => (refused, db)
  end.

(** Every foreign key the deletion of an album can break points at a
    stored row. *)
Definition referential_integrity (db : Database) : Prop :=
  Forall (λ s, is_Some (Album_objects_get_pk db (song_album s))) (songs db)
  ∧ Forall (λ r, ∀ a, rating_album r = Some a → is_Some (Album_objects_get_pk db a))
      (ratings db)
  ∧ Forall (λ p, Forall (λ k, is_Some (Song_objects_get_pk db k)) (playlist_songs p))
      (playlists db).

(** The constraints on the table of songs: primary keys are set and
    unique, and so are the pairs of title and album. *)
Definition songs_constraints (rows : list Song) : Prop :=
  Forall (λ r, is_Some (song_pk r)) rows
  ∧ NoDup (song_pk <$> rows)
  ∧ NoDup ((λ r, (song_title r, song_album r)) <$> rows).

(** Creating the songs of [ds] one after the other; the first failure
    ends it. *)
Fixpoint Song_objects_create_all (nulls_first : bool) (db : Database) (ds : list SongData)
    : DatabaseError + list Song * Database :=
  match ds with
  | [] => inr ([], db)
  | d :: ds =>
      match Song_objects_create nulls_first db d with
      | inl e => inl e
      | inr (s, db) =>
          match Song_objects_create_all nulls_first db ds with
          | inl e => inl e
          | inr (ss, db) => inr (s :: ss, db)
          end
      end
  end.

End Persistence.
Export Persistence.

(** ** views.py and api_views.py: the listings *)

Module Listings.

(** *** HomeView.get_context_data *)

Record HomeContext := {
  home_albums : list Album;
  home_total_results : nat;
  home_playlists : list Playlist;
  home_songs : option (list Song)   (* the key 'songs' may be absent *)
}.

Definition HomeView_get_context_data (nulls_largest : bool) (db : Database)
    (user : RequestUser) : HomeContext :=
  let albums := HomeView_get_queryset db user in
  {| home_albums := albums;
     home_total_results := length albums;
     home_playlists := HomeView_playlists db user;
     home_songs :=
       match user with
       | AnonymousUser => None
       | Authenticated u =>
           if groups_filter_exists u "DottifyAdmin"
           then Some (Song_default_ordering nulls_largest (songs db))
           else None
       end |}.

(** *** SongSerializer *)

(** fields = ['id', 'title', 'length', 'album'] *)
Record SongRepresentation := {
  repr_id : option nat;
  repr_title : string;
  repr_length : nat;
  repr_album : nat
}.

Definition SongSerializer_data (s : Song) : SongRepresentation :=
  {| repr_id := song_pk s; repr_title := song_title s; repr_length := song_length s;
     repr_album := song_album s |}.

(** *** NestedSongViewSet, for numeric keys in the route *)

Definition NestedSongViewSet_get_queryset (nulls_largest : bool) (db : Database)
    (album_pk : nat) : list Song :=
  Song_default_ordering nulls_largest (Song_objects_filter_album db album_pk).

(** [ReadOnlyModelViewSet.list], without pagination *)
Definition NestedSongViewSet_list (nulls_largest : bool) (db : Database) (album_pk : nat)
    : Response (list SongRepresentation) :=
  HttpResponseOK (SongSerializer_data <$> NestedSongViewSet_get_queryset nulls_largest db album_pk).

(** [get_object_or_404(Song, pk=pk, album_id=album_pk)] *)
Definition NestedSongViewSet_retrieve (db : Database) (pk : nat) (album_pk : nat)
    : Response SongRepresentation :=
  match head (filter (λ s, song_pk s = Some pk ∧ song_album s = album_pk) (songs db)) with
  | Some song => HttpResponseOK (SongSerializer_data song)
  | None => HttpResponseNotFound
  end.

(** *** StatisticsAPIView *)

Record Statistics := {
  user_count : nat;
  album_count : nat;
  playlist_count : nat;
  song_length_average : Q
}.

Definition StatisticsAPIView_get (db : Database) : Response Statistics :=
  let user_count := length (dottify_users db) in
  let album_count := length (albums db) in
  let playlist_count := length (filter (λ p, visibility p = PUBLIC) (playlists db)) in
  let song_length_avg :=
    Avg (avg_float (backend db)) ((λ s, inject_Z (Z.of_nat (song_length s))) <$> songs db) in
  (* float(song_length_avg) if song_length_avg is not None else 0.0 *)
  let song_length_average :=
    match song_length_avg with
    | Some avg => avg
    | None => 0%Q
    end in
  HttpResponseOK {| user_count := user_count; album_count := album_count;
                    playlist_count := playlist_count;
                    song_length_average := song_length_average |}.

End Listings.
Export Listings.

(** ** More sample data *)

Module Samples.

(** A second album, of nobody and without songs, and the database of the
    tests with it. *)
Definition konosuba_album : Album :=
  {| album_pk := 2; cover_image := None; title := "Kono Subarashii";
     artist_name := "Megumin"; artist_account := None; retail_price := 999;
     format := Some LIVE; release_date := 20400; slug := "kono-subarashii" |}.

Definition two_albums (now : Z) (v : Visibility) : Database :=
  set_albums (Fixtures.db now v) [Fixtures.explosion; konosuba_album].


(** The second song, sent to album 2 by an update. *)
Definition bakuretsu_moved : Song :=
  {| song_pk := Some 2; song_title := "Bakuretsu Magic"; song_length := 540;
     position := Some 2; song_album := 2 |}.

Definition konosuba : AlbumData :=
  {| data_cover_image := None; data_album_title := "Kono Subarashii";
     data_artist_name := "Megumin"; data_retail_price := 999;
     data_format := Some LIVE; data_release_date := 20400 |}.

(** The data of the stored album, sent once more. *)
Definition explosion_again : AlbumData :=
  {| data_cover_image := None; data_album_title := "Explosion!!!";
     data_artist_name := "Megumin"; data_retail_price := 299;
     data_format := Some SNGL; data_release_date := 20089 |}.

Definition untitled_format : AlbumData :=
  {| data_cover_image := None; data_album_title := "Explosion!!!";
     data_artist_name := "Megumin"; data_retail_price := 299;
     data_format := None; data_release_date := 20089 |}.

End Samples.

(** * Properties *)

(** ** Lists and lookups *)

Lemma filter_none {A} (P : A → Prop) `{!∀ x, Decision (P x)} (l : list A) :
  Forall (λ x, ¬ P x) l → filter P l = [].
Proof.
  induction 1 as [|x l Hx _ IH]; [done|]. by rewrite filter_cons_False.
Qed.

Lemma filter_all {A} (P : A → Prop) `{!∀ x, Decision (P x)} (l : list A) :
  Forall P l → filter P l = l.
Proof.
  induction 1 as [|x l Hx _ IH]; [done|]. by rewrite filter_cons_True, IH.
Qed.

Lemma is_Some_head_filter {A} (P : A → Prop) `{!∀ x, Decision (P x)} (l : list A) :
  is_Some (head (filter P l)) ↔ ∃ x, x ∈ l ∧ P x.
Proof.
  split.
  - intros [x Hx]. exists x.
    assert (Hin : x ∈ filter P l).
    { destruct (filter P l) as [|y l']; [done|]. simpl in Hx. simplify_eq.
      apply elem_of_cons. by left. }
    by apply list_elem_of_filter in Hin as [? ?].
  - intros (x & Hin & HP).
    assert (Hx : x ∈ filter P l) by by apply list_elem_of_filter.
    by destruct (filter P l); [apply elem_of_nil in Hx|].
Qed.

Lemma head_filter_Some {A} (P : A → Prop) `{!∀ x, Decision (P x)} (l : list A) (x : A) :
  head (filter P l) = Some x → x ∈ l ∧ P x.
Proof.
  intros Hx.
  assert (Hin : x ∈ filter P l).
  { destruct (filter P l) as [|y l']; [done|]. simpl in Hx. simplify_eq.
    apply elem_of_cons. by left. }
  by apply list_elem_of_filter in Hin as [? ?].
Qed.

Lemma Album_objects_get_pk_Some db pk a :
  Album_objects_get_pk db pk = Some a → a ∈ albums db ∧ album_pk a = pk.
Proof. by intros [? ?]%head_filter_Some. Qed.

(** ** Roles *)



Lemma role_of_Artist u :
  role_of (Authenticated u) = Artist ↔
  groups_filter_exists u "DottifyAdmin" = false ∧ groups_filter_exists u "Artist" = true.
Proof.
  simpl.
  destruct (groups_filter_exists u "DottifyAdmin"), (groups_filter_exists u "Artist");
    intuition congruence.
Qed.

Lemma role_of_Admin u :
  role_of (Authenticated u) = Admin ↔ groups_filter_exists u "DottifyAdmin" = true.
Proof.
  simpl.
  destruct (groups_filter_exists u "DottifyAdmin"), (groups_filter_exists u "Artist");
    intuition congruence.
Qed.

(** ** Slugs and lookups on the sample data *)

Example slugify_display_name : slugify_ascii "explosion!!!" = "explosion".
Proof. reflexivity. Qed.

Example slugify_title : slugify_ascii "Bakuretsu  Magic -- _live_" = "bakuretsu-magic-_live".
Proof. reflexivity. Qed.

Example slugify_no_letter : slugify_ascii "!!!" = EmptyString.
Proof. reflexivity. Qed.

Example icontains_ignores_case : icontains "PLO" "Explosion!!!" = true.
Proof. reflexivity. Qed.

(** ** Playlist listing on the home page *)

(** A Guest is listed Public playlists only; a principal outside the group
    DottifyAdmin is listed the playlists of their profile only. *)
Lemma HomeView_playlists_scope db user p :
  p ∈ HomeView_playlists db user →
  match role_of user with
  | Guest => visibility p = PUBLIC
  | Admin => True
  | Member | Artist => ∃ d, profile_of db user = Some d ∧ owner p = du_pk d
  end.
Proof.
  destruct user as [|u]; simpl.
  - by intros [? _]%list_elem_of_filter.
  - destruct (groups_filter_exists u "DottifyAdmin"); [done|].
    destruct (DottifyUser_objects_get_user db u) as [d|];
      destruct (groups_filter_exists u "Artist");
      try (intros [? _]%list_elem_of_filter; eauto);
      by intros ?%elem_of_nil.
Qed.

(** ** Album search *)

(** C8: for every query string, the empty one and an absent parameter
    included, an album search by an unauthenticated principal is answered
    with status 401 and no result set. *)
Theorem C8_search_unauthenticated (db : Database) (q : option string) :
  album_search db AnonymousUser q
    = HttpResponse401 "You must be logged in to view this page."
  ∧ status_code (album_search db AnonymousUser q) = 401.
Proof. by split. Qed.

Lemma icontains_empty (field : string) : icontains EmptyString field = true.
Proof. unfold icontains. simpl. by destruct (lower field). Qed.

(** C10: for every authenticated principal, a search with the empty query
    (or without the parameter) finds no album, although the empty string
    occurs in every title. *)
Theorem C10_search_empty_query (db : Database) (u : User) :
  album_search db (Authenticated u) (Some EmptyString)
    = HttpResponseOK {| search_albums := []; search_query := EmptyString;
                      search_total_results := 0 |}
  ∧ album_search db (Authenticated u) None
    = HttpResponseOK {| search_albums := []; search_query := EmptyString;
                      search_total_results := 0 |}
  ∧ filter (λ a, icontains EmptyString (title a) = true) (albums db) = albums db.
Proof.
  split_and!; [done..|].
  induction (albums db) as [|a l IH]; [done|].
  rewrite filter_cons_True; [by rewrite IH | apply icontains_empty].
Qed.

(** ** Album listing *)

(** C2, as the code has it: the home page lists every album for a Guest and
    for an Admin, no album for a Member, and for an Artist exactly the
    albums whose [artist_account] is their profile (none without a
    profile), in table order. *)
Theorem C2_album_listing_by_role (db : Database) (user : RequestUser) :
  HomeView_get_queryset db user =
    match role_of user with
    | Guest | Admin => albums db
    | Member => []
    | Artist =>
        match profile_of db user with
        | Some d => filter (λ a, artist_account a = Some (du_pk d)) (albums db)
        | None => []
        end
    end.
Proof.
  destruct user as [|u]; simpl; [done|].
  by destruct (groups_filter_exists u "DottifyAdmin"), (groups_filter_exists u "Artist").
Qed.

(** C2 fails for a Member: with one album stored, a principal in no group
    is shown none. *)
Lemma C2_member_lists_no_album :
  role_of (Authenticated Fixtures.kazuma) = Member
  ∧ albums (Fixtures.db Fixtures.today PUBLIC) = [Fixtures.explosion]
  ∧ HomeView_get_queryset (Fixtures.db Fixtures.today PUBLIC)
      (Authenticated Fixtures.kazuma) = [].
Proof. by vm_compute. Qed.

(** ** Authorization of album and song mutations *)

(** Splits a goal made of conjunctions, equivalences and implications and
    closes the cases by the equations in the context. *)
Ltac settle :=
  repeat match goal with
         | |- _ ∧ _ => split
         | |- _ ↔ _ => split
         | |- _ → _ => intro
         | |- ¬ _ => intro
         | H : _ ∨ _ |- _ => destruct H
         | H : _ ∧ _ |- _ => destruct H
         | H : ∃ _, _ |- _ => destruct H
         end;
  simplify_eq; try done; try congruence; eauto 8.

Lemma artist_account_is_true album d :
  artist_account_is album d = true ↔ artist_account album = Some (du_pk d).
Proof. unfold artist_account_is. by rewrite bool_decide_eq_true. Qed.

Lemma owns_stored_album db user pk album :
  Album_objects_get_pk db pk = Some album →
  (owns db user (AlbumUpdate pk) ↔
     ∃ d, profile_of db user = Some d ∧ artist_account_is album d = true)
  ∧ (owns db user (AlbumDelete pk) ↔ owns db user (AlbumUpdate pk)).
Proof.
  intros Hget. unfold owns. simpl. rewrite Hget. simpl. split; [|done].
  split; intros (d & Hd & Ha); exists d; split; try done.
  - apply artist_account_is_true. congruence.
  - apply artist_account_is_true in Ha. congruence.
Qed.

Lemma guest_owns_nothing db m : ¬ owns db AnonymousUser m.
Proof. by intros (d & Hd & _). Qed.

(** C3, as the code has it: on a stored album, update is granted to an
    Admin and to an Artist whose profile is the album's [artist_account],
    and to nobody else; delete is granted to an Admin and to any
    authenticated principal whose profile is the album's [artist_account],
    whatever their groups, and to nobody else.  A Guest is sent to the login
    page by both, and without a profile only an Admin passes. *)
Theorem C3_album_update_delete (db : Database) (user : RequestUser) (pk : nat) (album : Album) :
  Album_objects_get_pk db pk = Some album →
  (AlbumUpdateView db user pk = Granted ↔
     role_of user = Admin ∨ (role_of user = Artist ∧ owns db user (AlbumUpdate pk)))
  ∧ (AlbumDeleteView db user pk = Granted ↔
       role_of user = Admin ∨ owns db user (AlbumDelete pk))
  ∧ (role_of user = Guest →
       AlbumUpdateView db user pk = LoginRedirect ∧ AlbumDeleteView db user pk = LoginRedirect)
  ∧ (role_of user = Member → AlbumUpdateView db user pk = PermissionDenied)
  ∧ (profile_of db user = None → role_of user ≠ Admin →
       AlbumUpdateView db user pk ≠ Granted ∧ AlbumDeleteView db user pk ≠ Granted).
Proof.
  intros Hget.
  destruct (owns_stored_album db user pk album Hget) as [Hown Hdel].
  rewrite Hdel, Hown. clear Hown Hdel.
  destruct user as [|u]; simpl.
  { split_and!; try done; (split; [done|]).
    - by intros [?|[? _]].
    - by intros [?|(d & ? & _)]. }
  unfold AlbumUpdateView, AlbumDeleteView, AlbumUpdateView_test_func,
    AlbumDeleteView_test_func, get_object. simpl. rewrite Hget. simpl.
  destruct (groups_filter_exists u "DottifyAdmin") eqn:Hadmin;
    destruct (groups_filter_exists u "Artist") eqn:Hartist;
    destruct (DottifyUser_objects_get_user db u) as [d|] eqn:Hd;
    try destruct (artist_account_is album d) eqn:Ha; simpl; settle.
Qed.

Lemma C3_album_update_delete_witness :
  Album_objects_get_pk (Fixtures.db Fixtures.today PUBLIC) 1 = Some Fixtures.explosion
  ∧ AlbumUpdateView (Fixtures.db Fixtures.today PUBLIC)
      (Authenticated Fixtures.megumin_artist) 1 = Granted.
Proof.
  split; [reflexivity|].
  destruct (C3_album_update_delete (Fixtures.db Fixtures.today PUBLIC)
              (Authenticated Fixtures.megumin_artist) 1 Fixtures.explosion)
    as ([_ Hupdate] & _); [reflexivity|].
  apply Hupdate. right. split; [reflexivity|].
  exists Fixtures.explosion_profile. split; reflexivity.
Defined.

(** C3 fails for delete: a Member whose profile is the album's
    [artist_account] is granted the deletion. *)
Lemma C3_member_owner_deletes :
  role_of (Authenticated Fixtures.megumin) = Member
  ∧ Album_objects_get_pk (Fixtures.db Fixtures.today PUBLIC) 1 = Some Fixtures.explosion
  ∧ profile_of (Fixtures.db Fixtures.today PUBLIC) (Authenticated Fixtures.megumin)
      = Some Fixtures.explosion_profile
  ∧ artist_account Fixtures.explosion = Some (du_pk Fixtures.explosion_profile)
  ∧ AlbumDeleteView (Fixtures.db Fixtures.today PUBLIC) (Authenticated Fixtures.megumin) 1
      = Granted.
Proof. by vm_compute. Qed.


(** Whatever permission classes the settings name, the API decides on the
    request alone: it answers alike in two databases that store the same
    keys, whoever owns the objects. *)
Lemma ModelViewSet_request_only {A} permission_classes (get1 get2 : nat → option A)
    user action :
  (∀ pk, is_Some (get1 pk) ↔ is_Some (get2 pk)) →
  ModelViewSet permission_classes get1 user action
    = ModelViewSet permission_classes get2 user action.
Proof.
  intros Hsame. unfold ModelViewSet.
  destruct (check_permissions permission_classes user action); simpl; [|done].
  destruct action as [| |pk|pk|pk|pk]; try done;
    specialize (Hsame pk); destruct (get1 pk), (get2 pk); try done;
    destruct Hsame as [H1 H2];
    try (by destruct H1; eauto); try (by destruct H2; eauto).
Qed.




(** A principal in both groups passes song creation only on an album whose
    [artist_account] is their profile: the handler tests the group Artist
    without asking for the group DottifyAdmin first. *)
Lemma song_create_in_both_groups db u album :
  groups_filter_exists u "DottifyAdmin" = true →
  groups_filter_exists u "Artist" = true →
  SongCreateView db (Authenticated u) album = Granted ↔
  owns db (Authenticated u) (SongCreate album).
Proof.
  intros Hadmin Hartist. unfold owns, SongCreateView, SongCreateView_form_valid,
    IsArtistOrAdminMixin_test_func, groups_filter_in_exists. simpl.
  rewrite Hadmin, Hartist. simpl.
  destruct (DottifyUser_objects_get_user db u) as [d|]; [|settle].
  destruct (artist_account_is album d) eqn:Ha; simpl.
  - apply artist_account_is_true in Ha. rewrite Ha. settle.
  - split; [done|]. intros (d' & ? & ?). simplify_eq.
    assert (artist_account_is album d' = true) by by apply artist_account_is_true.
    congruence.
Qed.

(** Every other mutation of a stored object is granted to a principal in
    the group DottifyAdmin, whatever their other groups. *)
Lemma admin_granted_elsewhere db u m :
  groups_filter_exists u "DottifyAdmin" = true →
  (∀ album, m ≠ SongCreate album) →
  browsable db (Authenticated u) m = Granted ∨ browsable db (Authenticated u) m = Http404.
Proof.
  intros Hadmin Hm.
  destruct m as [|pk|pk|album|pk|pk]; simpl;
    unfold AlbumCreateView, AlbumUpdateView, AlbumDeleteView,
      SongUpdateView, SongDeleteView, SongDeleteView_test_func,
      AlbumUpdateView_test_func, AlbumDeleteView_test_func, SongUpdateView_test_func,
      IsArtistOrAdminMixin_test_func, groups_filter_in_exists, get_object; simpl;
    rewrite ?Hadmin; simpl.
  - left. by destruct (groups_filter_exists u "Artist").
  - destruct (Album_objects_get_pk db pk); simpl; auto.
  - destruct (Album_objects_get_pk db pk); simpl; auto.
  - by destruct (Hm album).
  - destruct (Song_objects_get_pk db pk); simpl; auto.
  - destruct (Song_objects_get_pk db pk); simpl; auto.
Qed.

(** C4, at a principal of both groups with a profile of their own and an
    album of somebody else: the role is Admin, update and delete of the
    album and of its songs are granted, the creation of a song under it is
    refused with the answer meant for artists. *)
Theorem C4_admin_artist_song_create_refused :
  groups Fixtures.aqua = {["Artist"; "DottifyAdmin"]}
  ∧ role_of (Authenticated Fixtures.aqua) = Admin
  ∧ AlbumUpdateView (Fixtures.db Fixtures.today PUBLIC) (Authenticated Fixtures.aqua) 1 = Granted
  ∧ SongUpdateView (Fixtures.db Fixtures.today PUBLIC) (Authenticated Fixtures.aqua) 1 = Granted
  ∧ SongDeleteView (Fixtures.db Fixtures.today PUBLIC) (Authenticated Fixtures.aqua) 1 = Granted
  ∧ SongCreateView (Fixtures.db Fixtures.today PUBLIC) (Authenticated Fixtures.aqua)
      Fixtures.explosion
    = HttpResponseForbidden "You can only add songs to your own albums.".
Proof. by vm_compute. Qed.

(** ** Reading one playlist *)

Lemma Playlist_objects_get_pk_absent rows pk :
  pk ∉ playlist_pk <$> rows → Playlist_objects_get_pk rows pk = None.
Proof.
  unfold Playlist_objects_get_pk.
  induction rows as [|x rows IH]; [done|].
  rewrite fmap_cons, not_elem_of_cons. intros [Hx Hrows].
  rewrite filter_cons_False; [by apply IH | congruence].
Qed.

Lemma Playlist_objects_get_pk_filter (P : Playlist → Prop) `{!∀ x, Decision (P x)}
    rows pk p :
  NoDup (playlist_pk <$> rows) →
  Playlist_objects_get_pk rows pk = Some p →
  Playlist_objects_get_pk (filter P rows) pk = if decide (P p) then Some p else None.
Proof.
  unfold Playlist_objects_get_pk.
  induction rows as [|x rows IH]; [done|].
  rewrite fmap_cons, NoDup_cons. intros [Hx Hnodup].
  destruct (decide (playlist_pk x = pk)) as [Heq|Hne].
  - rewrite (filter_cons_True (λ p, playlist_pk p = pk)) by done. simpl.
    intros [= <-]. destruct (decide (P x)).
    + rewrite (filter_cons_True P) by done. by rewrite filter_cons_True.
    + rewrite (filter_cons_False P) by done.
      apply Playlist_objects_get_pk_absent. rewrite <- Heq.
      intros (y & Hy & Hin)%list_elem_of_fmap. apply Hx.
      apply list_elem_of_fmap. exists y. split; [done|].
      by apply list_elem_of_filter in Hin as [_ ?].
  - rewrite (filter_cons_False (λ p, playlist_pk p = pk)) by done.
    intros Hget. destruct (decide (P x)).
    + rewrite (filter_cons_True P) by done. rewrite filter_cons_False by done. by apply IH.
    + rewrite (filter_cons_False P) by done. by apply IH.
Qed.

(** C5, as the code has it: the browsable detail view shows a stored
    playlist by its id whatever its visibility and owner; the API retrieves
    it only when it is Public and answers not-found otherwise, for every
    caller. *)
Theorem C5_playlist_read_one (db : Database) (user : RequestUser) (pk : nat) (p : Playlist) :
  NoDup (playlist_pk <$> playlists db) →
  Playlist_objects_get_pk (playlists db) pk = Some p →
  (∃ context, PlaylistDetailView db pk = HttpResponseOK context
              ∧ detail_playlist context = p)
  ∧ PlaylistViewSet_retrieve db user pk =
      if decide (visibility p = PUBLIC) then HttpResponseOK p else HttpResponseNotFound.
Proof.
  intros Hnodup Hget. split.
  - unfold PlaylistDetailView, get_object. rewrite Hget. eauto.
  - unfold PlaylistViewSet_retrieve, PlaylistViewSet_get_queryset.
    rewrite (Playlist_objects_get_pk_filter _ _ _ _ Hnodup Hget).
    by destruct (decide (visibility p = PUBLIC)).
Qed.

Lemma C5_playlist_read_one_witness :
  PlaylistViewSet_retrieve (Fixtures.db Fixtures.today UNLISTED) AnonymousUser 1
    = HttpResponseNotFound.
Proof.
  destruct (C5_playlist_read_one (Fixtures.db Fixtures.today UNLISTED) AnonymousUser 1
              (Fixtures.degen UNLISTED)) as [_ Hapi].
  - simpl. apply NoDup_singleton.
  - reflexivity.
  - exact Hapi.
Defined.

(** C5 fails at the API: a Hidden playlist the detail view shows is not
    found by the API's retrieve. *)
Lemma C5_hidden_playlist_not_retrievable :
  Playlist_objects_get_pk (playlists (Fixtures.db Fixtures.today HIDDEN)) 1
    = Some (Fixtures.degen HIDDEN)
  ∧ status_code (PlaylistDetailView (Fixtures.db Fixtures.today HIDDEN) 1) = 200
  ∧ PlaylistViewSet_retrieve (Fixtures.db Fixtures.today HIDDEN) AnonymousUser 1
      = HttpResponseNotFound
  ∧ PlaylistViewSet_retrieve (Fixtures.db Fixtures.today HIDDEN)
      (Authenticated Fixtures.megumin) 1 = HttpResponseNotFound.
Proof. by vm_compute. Qed.

(** ** Rating averages *)

Lemma count_not_zero {A} (x : A) (l : list A) :
  ¬ (inject_Z (Z.of_nat (length (x :: l))) == 0)%Q.
Proof.
  unfold Qeq. simpl. lia.
Qed.


(** The number a backend has for a mean depends on the mean alone, not on
    the fraction that stands for it. *)
Lemma avg_decimal_proper (b : Backend) (q1 q2 : Q) :
  (q1 == q2)%Q → (avg_decimal b q1 == avg_decimal b q2)%Q.
Proof.
  intros Hq. apply Qle_antisym; apply avg_decimal_monotone; rewrite Hq; apply Qle_refl.
Qed.

Lemma avg_float_proper (b : Backend) (q1 q2 : Q) :
  (q1 == q2)%Q → (avg_float b q1 == avg_float b q2)%Q.
Proof.
  intros Hq. apply Qle_antisym; apply avg_float_monotone; rewrite Hq; apply Qle_refl.
Qed.

Lemma is_mean_quotient (x : Q) (l : list Q) (m : Q) :
  is_mean (x :: l) m →
  (foldr Qplus 0 (x :: l) / inject_Z (Z.of_nat (length (x :: l))) == m)%Q.
Proof.
  unfold is_mean. intros Hm. rewrite <- Hm. field. apply count_not_zero.
Qed.





(** ** Canonical slugs *)

Section CanonicalSlug.
Variable slugify : string → string.

(** A missing or different slug redirects to the same id with the slug of
    the display name, as long as that slug is one the route accepts. *)
Lemma user_detail_redirects db pk slug d :
  DottifyUser_objects_get_pk db pk = Some d →
  SlugConverter_matches (slugify (display_name d)) = true →
  slug ≠ Some (slugify (display_name d)) →
  user_detail slugify db pk slug
    = HttpResponseRedirect (url_user_detail_slug pk (slugify (display_name d))).
Proof.
  intros Hget Hmatch Hslug. unfold user_detail. rewrite Hget.
  rewrite bool_decide_eq_true_2 by done.
  unfold redirect_user_detail_slug, reverse_user_detail_slug. by rewrite Hmatch.
Qed.

(** The slug of the display name itself renders the profile. *)
Lemma user_detail_renders db pk d :
  DottifyUser_objects_get_pk db pk = Some d →
  user_detail slugify db pk (Some (slugify (display_name d)))
    = HttpResponseOK
        {| detail_dottify_user := d;
           detail_playlists := filter (λ p, owner p = du_pk d) (playlists db) |}.
Proof.
  intros Hget. unfold user_detail. rewrite Hget.
  rewrite bool_decide_eq_false_2; [done|]. by intros [].
Qed.

(** When the display name has a slug the route does not accept, no
    request for the profile is answered: the redirect cannot be built. *)
Lemma user_detail_no_reverse db pk slug d :
  DottifyUser_objects_get_pk db pk = Some d →
  SlugConverter_matches (slugify (display_name d)) = false →
  slug ≠ Some (slugify (display_name d)) →
  user_detail slugify db pk slug = ServerError NoReverseMatch.
Proof.
  intros Hget Hmatch Hslug. unfold user_detail. rewrite Hget.
  rewrite bool_decide_eq_true_2 by done.
  unfold redirect_user_detail_slug, reverse_user_detail_slug. by rewrite Hmatch.
Qed.
End CanonicalSlug.

(** The album page never looks at the slug of its route. *)
Lemma AlbumDetailView_any_slug db now pk slug :
  AlbumDetailView db now pk slug = AlbumDetailView db now pk None.
Proof. reflexivity. Qed.

(** C7, at a profile whose display name has the empty slug: neither the
    route without slug nor a route with a slug is answered with a redirect
    or the page; building the redirect fails. *)
Theorem C7_user_detail_empty_slug :
  DottifyUser_objects_get_pk (Fixtures.db Fixtures.today PUBLIC) 3 = Some Fixtures.aqua_profile
  ∧ slugify_ascii (display_name Fixtures.aqua_profile) = EmptyString
  ∧ user_detail slugify_ascii (Fixtures.db Fixtures.today PUBLIC) 3 None
      = ServerError NoReverseMatch
  ∧ user_detail slugify_ascii (Fixtures.db Fixtures.today PUBLIC) 3 (Some "aqua")
      = ServerError NoReverseMatch
  ∧ user_detail slugify_ascii (Fixtures.db Fixtures.today PUBLIC) 1 None
      = HttpResponseRedirect (url_user_detail_slug 1 "explosion")
  ∧ status_code (user_detail slugify_ascii (Fixtures.db Fixtures.today PUBLIC) 1
                   (Some "explosion")) = 200.
Proof. by vm_compute. Qed.

(** ** Song positions *)

Lemma greatest_song_pk_le rows r :
  r ∈ rows → (default 0 (song_pk r) ≤ greatest_song_pk rows)%nat.
Proof.
  induction rows as [|x rows IH]; [by intros ?%elem_of_nil|].
  intros [->|Hin]%elem_of_cons; cbn [greatest_song_pk foldr]; [lia|].
  specialize (IH Hin). unfold greatest_song_pk in IH. lia.
Qed.

Lemma next_song_pk_differs db r :
  r ∈ songs db → song_pk r ≠ Some (next_song_pk db).
Proof.
  intros Hin Hr. pose proof (greatest_song_pk_le _ _ Hin) as Hle.
  rewrite Hr in Hle. unfold next_song_pk in Hle. simpl in Hle. lia.
Qed.

Lemma next_song_pk_fresh db :
  ¬ Exists (λ r, song_pk r = Some (next_song_pk db)) (songs db).
Proof.
  intros (r & Hin & Hr)%Exists_exists. by apply (next_song_pk_differs db r).
Qed.

Lemma unique_song_title_per_album_kept rows s :
  Forall (λ r, song_title r ≠ song_title s) (filter (λ r, song_album r = song_album s) rows) →
  unique_song_title_per_album_violated rows s = false.
Proof.
  intros Hall. apply bool_decide_eq_false_2.
  intros (r & Hin & _ & Htitle & Halbum)%Exists_exists.
  rewrite Forall_forall in Hall. apply (Hall r); [|done].
  by apply list_elem_of_filter.
Qed.

Lemma song_album_stored db s :
  is_Some (Album_objects_get_pk db (song_album s)) → song_album_violated db s = false.
Proof.
  intros Hstored. unfold song_album_violated. by rewrite bool_decide_eq_true_2.
Qed.

Lemma Album_objects_get_pk_stored db pk :
  is_Some (Album_objects_get_pk db pk) ↔ Exists (λ a, album_pk a = pk) (albums db).
Proof.
  unfold Album_objects_get_pk. rewrite is_Some_head_filter, Exists_exists. done.
Qed.

(** Creation from client data, under a stored album that has no song of
    the same title: a new row at the end of the table, its position one more
    than the first position of the album in descending order. *)
Lemma Song_objects_create_appends nulls_first db d :
  is_Some (Album_objects_get_pk db (data_album d)) →
  Forall (λ r, song_title r ≠ data_title d) (Song_objects_filter_album db (data_album d)) →
  let s := set_song_pk
             (set_position (Song_of_data d)
                (Some (default 0 (first_position_desc nulls_first
                                    (position <$> Song_objects_filter_album db (data_album d)))
                       + 1)))
             (Some (next_song_pk db)) in
  Song_objects_create nulls_first db d = inr (s, set_songs db (songs db ++ [s])).
Proof.
  intros [a Ha] Hall s. unfold Song_objects_create, Song_save, Song_album. simpl.
  rewrite Ha. rewrite (proj2 (Album_objects_get_pk_Some _ _ _ Ha)).
  unfold Model_save_song. simpl. fold s.
  rewrite unique_song_title_per_album_kept by done.
  rewrite song_album_stored by (simpl; by rewrite Ha).
  rewrite bool_decide_eq_false_2; [done|]. apply next_song_pk_fresh.
Qed.

Lemma max_position_max_list ps : default 0 (max_position ps) = max_list (omap id ps).
Proof.
  induction ps as [|[n|] ps IH]; [done| |done].
  change (max_position (Some n :: ps))
    with (match max_position ps with Some m => Some (n `max` m) | None => Some n end).
  change (max_list (omap id (Some n :: ps))) with (n `max` max_list (omap id ps)).
  rewrite <- IH. destruct (max_position ps); simpl; lia.
Qed.

Lemma first_position_desc_max nulls_first ps :
  nulls_first = false ∨ Forall is_Some ps →
  default 0 (first_position_desc nulls_first ps) = max_list (omap id ps).
Proof.
  intros Hcase. unfold first_position_desc.
  destruct (nulls_first && bool_decide (None ∈ ps)) eqn:Hnull.
  - apply andb_true_iff in Hnull as [-> Hin]. apply bool_decide_eq_true in Hin.
    destruct Hcase as [|Hsome]; [done|].
    rewrite Forall_forall in Hsome. by destruct (Hsome None Hin).
  - apply max_position_max_list.
Qed.




(** * Further properties *)

(** ** Validators *)

Lemma Qle_bool_false (a b : Q) : Qle_bool a b = false ↔ (b < a)%Q.
Proof.
  split.
  - intros H. apply Qnot_le_lt. intros Hle. apply Qle_bool_iff in Hle. congruence.
  - intros H. destruct (Qle_bool a b) eqn:Hab; [|done].
    apply Qle_bool_iff in Hab. by apply Qlt_not_le in H.
Qed.

(** The search upwards ends at the leading digit when it has fuel to get
    there, and so does the search downwards. *)
Lemma adjusted_from_up fuel (q : Q) : ∀ e,
  (10 ^ e <= q)%Q → (q < 10 ^ (e + Z.of_nat fuel))%Q →
  leading_digit q (adjusted_from fuel q e).
Proof.
  induction fuel as [|fuel IH]; intros e Hlo Hhi.
  - rewrite Z.add_0_r in Hhi. by apply Qlt_not_le in Hhi.
  - cbn [adjusted_from]. rewrite (proj2 (Qle_bool_iff _ _) Hlo). cbn [negb].
    destruct (Qle_bool (10 ^ (e + 1)) q) eqn:Hnext.
    + apply IH; [by apply Qle_bool_iff|].
      by replace (e + 1 + Z.of_nat fuel)%Z with (e + Z.of_nat (S fuel))%Z by lia.
    + split; [done|]. by apply Qle_bool_false.
Qed.

Lemma adjusted_from_down fuel (q : Q) : ∀ e,
  (q < 10 ^ (e + 1))%Q → (10 ^ (e + 1 - Z.of_nat fuel) <= q)%Q →
  leading_digit q (adjusted_from fuel q e).
Proof.
  induction fuel as [|fuel IH]; intros e Hhi Hlo.
  - rewrite Z.sub_0_r in Hlo. by apply Qlt_not_le in Hhi.
  - cbn [adjusted_from].
    destruct (Qle_bool (10 ^ e) q) eqn:Hthis; cbn [negb].
    + rewrite (proj2 (Qle_bool_false _ _) Hhi). split; [|done]. by apply Qle_bool_iff.
    + apply IH.
      * replace (e - 1 + 1)%Z with e by lia. by apply Qle_bool_false.
      * by replace (e - 1 + 1 - Z.of_nat fuel)%Z with (e + 1 - Z.of_nat (S fuel))%Z by lia.
Qed.

Lemma inject_Z_lt_power (n k : Z) :
  (0 < n)%Z → (0 ≤ k)%Z → (Z.log2 n < k)%Z → (inject_Z n < 10 ^ k)%Q.
Proof.
  intros Hn Hk Hlog.
  assert (n < 10 ^ k)%Z.
  { apply Z.lt_le_trans with (2 ^ k)%Z.
    - apply Z.log2_lt_pow2; lia.
    - apply Z.pow_le_mono_l. lia. }
  change 10%Q with (inject_Z 10). rewrite <- Zpower_Qpower by done.
  by rewrite <- Zlt_Qlt.
Qed.

(** [Decimal_adjusted] has the fuel it needs: it finds the leading digit
    of every number above zero. *)
Lemma Decimal_adjusted_leading_digit (q : Q) :
  (0 < q)%Q → leading_digit q (Decimal_adjusted q).
Proof.
  intros Hq. unfold Decimal_adjusted.
  destruct q as [n d]. cbn [Qnum Qden].
  assert (Hn : (0 < n)%Z) by (unfold Qlt in Hq; simpl in Hq; lia).
  pose proof (Z.log2_nonneg n) as Hln. pose proof (Z.log2_nonneg (Z.pos d)) as Hld.
  set (fuel := Z.to_nat _).
  assert (Hfuel : Z.of_nat fuel = (Z.log2 n + Z.log2 (Z.pos d) + 2)%Z) by (subst fuel; lia).
  destruct (Qlt_le_dec (n # d) 1) as [Hsmall|Hbig].
  - apply adjusted_from_down; [by apply Qlt_trans with 1%Q|]. rewrite Hfuel.
    apply Qle_trans with (1 # d).
    + replace (0 + 1 - (Z.log2 n + Z.log2 (Z.pos d) + 2))%Z
        with (- (Z.log2 n + Z.log2 (Z.pos d) + 1))%Z by lia.
      rewrite Qpower_opp.
      assert (Hd : (inject_Z (Z.pos d) < 10 ^ (Z.log2 n + Z.log2 (Z.pos d) + 1))%Q).
      { apply inject_Z_lt_power; lia. }
      change (1 # d) with (/ inject_Z (Z.pos d))%Q.
      apply Qlt_le_weak.
      apply (Qinv_lt_contravar (inject_Z (Z.pos d))); [reflexivity| |exact Hd].
      by apply Qpower_0_lt.
    + unfold Qle. cbn [Qnum Qden]. nia.
  - apply adjusted_from_up.
    + by rewrite Qpower_0_r.
    + rewrite Hfuel. apply Qle_lt_trans with (inject_Z n).
      * unfold Qle in *. cbn [Qnum Qden inject_Z] in *. nia.
      * apply inject_Z_lt_power; lia.
Qed.

Lemma round_half_even_integer (x : Q) (m : Z) : (x == inject_Z m)%Q → round_half_even x = m.
Proof.
  intros Hx. unfold round_half_even. cbv zeta.
  rewrite (Qfloor_comp _ _ Hx), Qfloor_Z.
  assert ((x - inject_Z m ?= 1 # 2)%Q = Lt) as ->; [|done].
  apply -> Qlt_alt. rewrite Hx. unfold Qminus. rewrite Qplus_opp_r. done.
Qed.

Lemma power_shift (x : Q) (c s t : Z) :
  (x * 10 ^ s == inject_Z c)%Q → (s ≤ t)%Z →
  (x * 10 ^ t == inject_Z (c * 10 ^ (t - s)))%Q.
Proof.
  intros Hx Hst. replace t with (s + (t - s))%Z at 1 by lia.
  rewrite Qpower_plus by done. rewrite Qmult_assoc, Hx.
  rewrite inject_Z_mult. rewrite Zpower_Qpower by lia. reflexivity.
Qed.

(** A number between 0 and 10 with no more than 27 digits after the point
    has no more than 28 significant digits: the context leaves it as it
    is. *)
Lemma Decimal_fix_places (x : Q) (c : Z) :
  (0 <= x)%Q → (x <= 10)%Q → (x * 10 ^ 27 == inject_Z c)%Q → (Decimal_fix x == x)%Q.
Proof.
  intros H0 H10 Hc. unfold Decimal_fix. cbv zeta.
  pose proof (Qred_correct x) as Hred. set (x' := Qred x) in *.
  destruct (Qeq_bool x' 0) eqn:Hzero.
  { apply Qeq_bool_eq in Hzero. by rewrite <- Hred, Hzero. }
  apply Qeq_bool_neq in Hzero.
  assert (Hpos : (0 < x')%Q).
  { apply Qle_lt_or_eq in H0 as [?|Heq]; [by rewrite Hred|].
    destruct Hzero. by rewrite Hred, <- Heq. }
  assert (Habs : (Qabs x' == x')%Q) by (apply Qabs_pos; by apply Qlt_le_weak).
  destruct (Decimal_adjusted_leading_digit (Qabs x')) as [Hlo _]; [by rewrite Habs|].
  set (e := Decimal_adjusted (Qabs x')) in *.
  rewrite Habs, Hred in Hlo.
  assert (He : (e ≤ 1)%Z).
  { apply (Qpower_le_compat_l_inv 10); [|done].
    by apply Qle_trans with x. }
  set (exp_min := Z.max (e - (Context_prec - 1)) Context_Etiny).
  assert (Hgrid : ∃ m : Z, (x * 10 ^ (- exp_min) == inject_Z m)%Q).
  { destruct (decide (e = 1%Z)) as [He1|He1].
    - exists (10 ^ 27)%Z.
      assert (x == 10)%Q as ->.
      { apply Qle_antisym; [done|]. by rewrite He1 in Hlo. }
      subst exp_min. rewrite He1. done.
    - eexists. apply (power_shift x c 27); [done|].
      subst exp_min. unfold Context_prec, Context_Etiny. lia. }
  destruct Hgrid as [m Hm].
  rewrite (round_half_even_integer _ m) by (by rewrite Hred).
  rewrite <- Hm, <- Qmult_assoc, <- Qpower_plus by done.
  replace (- exp_min + exp_min)%Z with 0%Z by lia.
  apply Qmult_1_r.
Qed.

Lemma Decimal_int_whole (d : Q) (k : Z) : (d == inject_Z k)%Q → Decimal_int d = k.
Proof.
  unfold Qeq, Decimal_int. simpl. intros Hd.
  replace (Qnum d) with (k * Z.pos (Qden d))%Z by lia.
  apply Z.quot_mul. lia.
Qed.

Lemma Decimal_mul_half_step (value : Q) (k : Z) :
  (0 ≤ k ≤ 10)%Z → (value == k # 2)%Q → (Decimal_mul value 2 == inject_Z k)%Q.
Proof.
  intros Hk Hv. unfold Decimal_mul.
  assert (Hd : (value * 2 == inject_Z k)%Q).
  { rewrite Hv. unfold Qeq. simpl. lia. }
  rewrite (Decimal_fix_places _ (k * 10 ^ 27)); [done| | |].
  - rewrite Hd. change 0%Q with (inject_Z 0). rewrite <- Zle_Qle. lia.
  - rewrite Hd. change 10%Q with (inject_Z 10). rewrite <- Zle_Qle. lia.
  - rewrite Hd. by rewrite inject_Z_mult.
Qed.

Lemma Decimal_mul_places (value : Q) :
  (0 <= value)%Q → (value <= 5)%Q → decimal_places_27 value →
  (Decimal_mul value 2 == value * 2)%Q.
Proof.
  intros H0 H5 [c Hc]. unfold Decimal_mul.
  apply (Decimal_fix_places _ (2 * c)).
  - rewrite <- (Qmult_0_l 2). by apply Qmult_le_compat_r.
  - change 10%Q with (5 * 2)%Q. by apply Qmult_le_compat_r.
  - rewrite Hc. unfold Qeq. simpl. lia.
Qed.

Lemma validate_stars_half_step_range (value : Q) :
  validate_stars_half_step value = Valid → (0 <= value)%Q ∧ (value <= 5)%Q.
Proof.
  unfold validate_stars_half_step.
  destruct (Qle_bool 0 value) eqn:H0; [|done].
  destruct (Qle_bool value 5) eqn:H5; [|done].
  intros _. by split; apply Qle_bool_iff.
Qed.

Lemma half_step_range (value : Q) (k : Z) :
  (value == k # 2)%Q → (0 <= value)%Q → (value <= 5)%Q → (0 ≤ k ≤ 10)%Z.
Proof.
  intros Hv H0 H5. rewrite Hv in H0, H5. unfold Qle in *. simpl in *. lia.
Qed.

Lemma validate_stars_half_step_passes (value : Q) (k : Z) :
  (0 ≤ k ≤ 10)%Z → (value == k # 2)%Q → validate_stars_half_step value = Valid.
Proof.
  intros Hk Hv. unfold validate_stars_half_step.
  assert (H0 : Qle_bool 0 value = true).
  { apply Qle_bool_iff. rewrite Hv. unfold Qle. simpl. lia. }
  assert (H5 : Qle_bool value 5 = true).
  { apply Qle_bool_iff. rewrite Hv. unfold Qle. simpl. lia. }
  rewrite H0, H5. simpl.
  pose proof (Decimal_mul_half_step value k Hk Hv) as Hd.
  rewrite (Decimal_int_whole _ _ Hd).
  by rewrite (proj2 (Qeq_bool_iff _ _) Hd).
Qed.

Lemma validate_stars_half_step_places (value : Q) :
  decimal_places_27 value → validate_stars_half_step value = Valid →
  ∃ k : Z, (0 ≤ k ≤ 10)%Z ∧ (value == k # 2)%Q.
Proof.
  intros Hplaces Hvalid.
  destruct (validate_stars_half_step_range value Hvalid) as [H0 H5].
  revert Hvalid. unfold validate_stars_half_step.
  rewrite (proj2 (Qle_bool_iff _ _) H0), (proj2 (Qle_bool_iff _ _) H5). simpl.
  destruct (Qeq_bool _ _) eqn:Hk; [|done]. intros _.
  apply Qeq_bool_eq in Hk. rewrite (Decimal_mul_places value H0 H5 Hplaces) in Hk at 1.
  set (k := Decimal_int _) in *. clearbody k.
  assert (Hv : (value == k # 2)%Q).
  { unfold Qeq in *. simpl in *. lia. }
  exists k. split; [|done]. by apply (half_step_range value).
Qed.

(** X1: the validator of stars passes the eleven values 0.0, 0.5, ...,
    5.0 and nothing outside 0.0 to 5.0; of the decimals with no more than 27
    digits after the point it passes those eleven only.  With more digits
    the product of the value and 2 is rounded to the 28 digits of the
    context before it is compared with its integer part, so
    2.50000000000000000000000000001 passes. *)
Theorem validate_stars_half_step_valid (value : Q) :
  ((∃ k : Z, (0 ≤ k ≤ 10)%Z ∧ (value == k # 2)%Q) →
   validate_stars_half_step value = Valid)
  ∧ (validate_stars_half_step value = Valid → (0 <= value)%Q ∧ (value <= 5)%Q)
  ∧ (decimal_places_27 value → validate_stars_half_step value = Valid →
     ∃ k : Z, (0 ≤ k ≤ 10)%Z ∧ (value == k # 2)%Q)
  ∧ validate_stars_half_step
      (250000000000000000000000000001 # 100000000000000000000000000000) = Valid.
Proof.
  split_and!.
  - intros (k & Hk & Hv). by apply (validate_stars_half_step_passes value k).
  - apply validate_stars_half_step_range.
  - apply validate_stars_half_step_places.
  - by vm_compute.
Qed.

Lemma validate_stars_half_step_valid_witness :
  validate_stars_half_step (35 # 10) = Valid
  ∧ ∃ k : Z, (0 ≤ k ≤ 10)%Z ∧ (35 # 10 == k # 2)%Q.
Proof.
  destruct (validate_stars_half_step_valid (35 # 10)) as (Hpasses & _ & Hplaces & _).
  assert (Hvalid : validate_stars_half_step (35 # 10) = Valid).
  { apply Hpasses. exists 7%Z. split; [lia|reflexivity]. }
  split; [exact Hvalid|].
  apply Hplaces; [|exact Hvalid].
  exists 3500000000000000000000000000%Z. reflexivity.
Defined.

(** X2: the error of the validator of stars names the rule that failed: a
    value outside 0.0 to 5.0 gets the message of the range, whether or not
    it is a multiple of 0.5; the message of the increments is kept for
    values inside the range that are no multiple of 0.5, and every such
    value with no more than 27 digits after the point gets it. *)
Theorem validate_stars_half_step_errors (value : Q) :
  (validate_stars_half_step value = ValidationError "Stars must be between 0.0 and 5.0."
   ↔ (value < 0)%Q ∨ (5 < value)%Q)
  ∧ (validate_stars_half_step value
       = ValidationError "Stars must be in increments of 0.5 (e.g., 2.5, 3.0, 4.5)."
     → (0 <= value)%Q ∧ (value <= 5)%Q ∧ ¬ ∃ k : Z, (value == k # 2)%Q)
  ∧ (decimal_places_27 value →
     (0 <= value)%Q → (value <= 5)%Q → (¬ ∃ k : Z, (value == k # 2)%Q) →
     validate_stars_half_step value
       = ValidationError "Stars must be in increments of 0.5 (e.g., 2.5, 3.0, 4.5).").
Proof.
  split_and!.
  - unfold validate_stars_half_step.
    destruct (Qle_bool 0 value) eqn:H0; simpl.
    + apply Qle_bool_iff in H0.
      destruct (Qle_bool value 5) eqn:H5; simpl.
      * apply Qle_bool_iff in H5.
        split; [by destruct (Qeq_bool _ _)|].
        intros [Hlt|Hlt]; by apply Qlt_not_le in Hlt.
      * apply Qle_bool_false in H5. split; auto.
    + apply Qle_bool_false in H0. split; auto.
  - intros Herror.
    assert (Hrange : (0 <= value)%Q ∧ (value <= 5)%Q).
    { revert Herror. unfold validate_stars_half_step.
      destruct (Qle_bool 0 value) eqn:H0; [|done].
      destruct (Qle_bool value 5) eqn:H5; [|done].
      intros _. by split; apply Qle_bool_iff. }
    destruct Hrange as [H0 H5]. split_and!; try done.
    intros (k & Hv).
    rewrite (validate_stars_half_step_passes value k) in Herror; [done| |done].
    by apply (half_step_range value).
  - intros Hplaces H0 H5 Hno.
    destruct (validate_stars_half_step value) as [|message] eqn:Hresult.
    + destruct Hno. destruct (validate_stars_half_step_places value Hplaces Hresult)
        as (k & _ & Hv). eauto.
    + revert Hresult. unfold validate_stars_half_step.
      rewrite (proj2 (Qle_bool_iff _ _) H0), (proj2 (Qle_bool_iff _ _) H5). simpl.
      destruct (Qeq_bool _ _); [done|]. by intros [= <-].
Qed.

Lemma validate_stars_half_step_errors_witness :
  validate_stars_half_step (37 # 10)
    = ValidationError "Stars must be in increments of 0.5 (e.g., 2.5, 3.0, 4.5).".
Proof.
  destruct (validate_stars_half_step_errors (37 # 10)) as (_ & _ & Hincrements).
  apply Hincrements.
  - exists 3700000000000000000000000000%Z. reflexivity.
  - discriminate.
  - discriminate.
  - intros (k & Hk). unfold Qeq in Hk. simpl in Hk. lia.
Defined.

(** X3: a release date passes when it is absent or at most 180 days after
    today, the 180th day included; no date is too early; and a date that
    passes today passes on every later day. *)
Theorem validate_release_date_window (today later : Z) (value : option Z) :
  (validate_release_date_within_6_months today value = Valid
   ↔ ∀ d, value = Some d → (d ≤ today + 180)%Z)
  ∧ ((today ≤ later)%Z →
     validate_release_date_within_6_months today value = Valid →
     validate_release_date_within_6_months later value = Valid).
Proof.
  unfold validate_release_date_within_6_months.
  destruct value as [d|]; [|by split].
  split.
  - case_bool_decide as Hd; split; try done.
    + intros Hall. specialize (Hall d eq_refl). lia.
    + intros _ d' [= <-]. lia.
  - intros Hle. repeat case_bool_decide; try done. lia.
Qed.

Lemma validate_release_date_window_witness :
  validate_release_date_within_6_months 20395%Z (Some 20500%Z) = Valid.
Proof.
  destruct (validate_release_date_window 20365%Z 20395%Z (Some 20500%Z)) as [_ Hlater].
  apply Hlater; [lia | reflexivity].
Defined.

(** ** The table of songs *)

(** X4: creating a song from client data fails with [DoesNotExist] when
    its album is not stored, and with an integrity error when the album has
    a song of that title already; otherwise it appends one row, under the
    next key of the sequence (greater than every key the table holds or has
    given up), at the position after the first position of the album in
    descending order, and changes nothing else. *)
Theorem Song_objects_create_outcome (nulls_first : bool) (db : Database) (d : SongData) :
  Song_objects_create nulls_first db d =
    (if decide (Exists (λ a, album_pk a = data_album d) (albums db)) then
       if decide (Exists (λ r, song_title r = data_title d ∧ song_album r = data_album d)
                    (songs db))
       then inl IntegrityError
       else
         let s :=
           {| song_pk := Some (next_song_pk db);
              song_title := data_title d; song_length := data_length d;
              position :=
                Some (default 0
                        (first_position_desc nulls_first
                           (position <$> filter (λ r, song_album r = data_album d) (songs db)))
                      + 1);
              song_album := data_album d |} in
         inr (s, set_songs db (songs db ++ [s]))
     else inl DoesNotExist)
  ∧ Forall (λ r, ∀ k, song_pk r = Some k → k < next_song_pk db) (songs db)
  ∧ songs_sequence db < next_song_pk db.
Proof.
  split_and!.
  - destruct (decide (Exists _ (albums db))) as [Hstored|Hmissing].
    + apply Album_objects_get_pk_stored in Hstored.
      destruct (decide (Exists _ (songs db))) as [Hdup|Hnodup].
      * destruct Hstored as [a Ha].
        unfold Song_objects_create, Song_save, Song_album. simpl. rewrite Ha.
        unfold Model_save_song. simpl.
        assert (unique_song_title_per_album_violated (songs db)
                  (set_song_pk
                     (set_position (Song_of_data d)
                        (Some (default 0 (first_position_desc nulls_first
                                            (position <$> Song_objects_filter_album db
                                                            (album_pk a))) + 1)))
                     (Some (next_song_pk db))) = true) as ->; [|done].
        apply bool_decide_eq_true_2.
        apply Exists_exists in Hdup as (r & Hin & Htitle & Halbum).
        apply Exists_exists. exists r. simpl. split_and!; try done.
        by apply next_song_pk_differs.
      * apply Song_objects_create_appends; [done|].
        apply Forall_forall. intros r [Halbum Hin]%list_elem_of_filter Htitle.
        apply Hnodup, Exists_exists. eauto.
    + unfold Song_objects_create, Song_save, Song_album. simpl.
      destruct (Album_objects_get_pk db (data_album d)) as [a|] eqn:Ha; [|done].
      destruct Hmissing. apply Album_objects_get_pk_stored. by rewrite Ha.
  - apply Forall_forall. intros r Hin k Hk.
    pose proof (greatest_song_pk_le _ _ Hin) as Hle. rewrite Hk in Hle.
    unfold next_song_pk. simpl in Hle. lia.
  - unfold next_song_pk. lia.
Qed.

Lemma Song_objects_create_outcome_witness :
  Song_objects_create false (Fixtures.db Fixtures.today PUBLIC) Fixtures.tornado
    = inl DoesNotExist
  ∧ ∃ s db', Song_objects_create false (Samples.two_albums Fixtures.today PUBLIC)
               Fixtures.tornado = inr (s, db')
             ∧ song_pk s = Some 3 ∧ position s = Some 1.
Proof.
  split.
  - destruct (Song_objects_create_outcome false (Fixtures.db Fixtures.today PUBLIC)
                Fixtures.tornado) as [-> _].
    reflexivity.
  - destruct (Song_objects_create_outcome false (Samples.two_albums Fixtures.today PUBLIC)
                Fixtures.tornado) as [-> _].
    eexists _, _. split; [reflexivity|]. split; reflexivity.
Defined.

(** A key that went with a deleted row is not given again: once the first
    album is deleted, and its songs 1 and 2 with it, the next song gets the
    key 3. *)
Example Song_objects_create_after_delete :
  ∃ s db',
    Song_objects_create false (Album_delete (Samples.two_albums Fixtures.today PUBLIC) 1)
      Fixtures.tornado = inr (s, db')
    ∧ song_pk s = Some 3 ∧ position s = Some 1 ∧ songs db' = [s].
Proof. eexists _, _. split; [reflexivity|]. by split_and!. Qed.

Lemma Model_save_song_constraints db s s' db' :
  songs_constraints (songs db) →
  Model_save_song db s = inr (s', db') →
  songs_constraints (songs db').
Proof.
  intros (Hstored & Hpk & Hpair). unfold Model_save_song.
  set (s0 := match song_pk s with Some _ => s | None => _ end).
  assert (Hs0 : is_Some (song_pk s0)).
  { subst s0. destruct (song_pk s) eqn:Hs; simpl; [by rewrite Hs|done]. }
  unfold unique_song_title_per_album_violated.
  case_bool_decide as Hviolated; [done|].
  assert (Hother : ∀ r, r ∈ songs db → song_pk r ≠ song_pk s0 →
                        (song_title r, song_album r) ≠ (song_title s0, song_album s0)).
  { intros r Hin Hne [= Htitle Halbum]. apply Hviolated, Exists_exists. eauto. }
  clearbody s0. clear Hviolated.
  destruct (song_album_violated db s0); [done|].
  case_bool_decide as Hrow; intros [= <- <-]; simpl.
  - set (g := λ r, if bool_decide (song_pk r = song_pk s0) then s0 else r).
    assert (Hg : ∀ r, song_pk (g r) = song_pk r).
    { intros r. unfold g. by case_bool_decide. }
    split_and!.
    + apply Forall_fmap. eapply Forall_impl; [exact Hstored|].
      intros r. simpl. by rewrite Hg.
    + assert (song_pk <$> (g <$> songs db) = song_pk <$> songs db) as ->; [|done].
      clear -Hg. induction (songs db) as [|r l IH]; [done|].
      csimpl. by rewrite Hg, IH.
    + apply NoDup_alt. intros i j x.
      rewrite !list_lookup_fmap.
      destruct (songs db !! i) as [ri|] eqn:Hi; [simpl|done].
      destruct (songs db !! j) as [rj|] eqn:Hj; [simpl|done].
      intros [= Hxi] [= Hxj]. rewrite <- Hxj in Hxi. clear Hxj x.
      apply list_elem_of_lookup_2 in Hi as Hini, Hj as Hinj.
      unfold g in Hxi. repeat case_bool_decide.
      * eapply (proj1 (NoDup_alt _) Hpk i j (song_pk ri));
          rewrite list_lookup_fmap; [by rewrite Hi|rewrite Hj; simpl; congruence].
      * by destruct (Hother rj Hinj).
      * by destruct (Hother ri Hini).
      * eapply (proj1 (NoDup_alt _) Hpair i j); rewrite list_lookup_fmap;
          [by rewrite Hi|rewrite Hj; simpl; congruence].
  - assert (Hfresh : ∀ r, r ∈ songs db → song_pk r ≠ song_pk s0).
    { intros r Hin Heq. apply Hrow, Exists_exists. eauto. }
    split_and!.
    + apply Forall_app. split; [done|]. by repeat constructor.
    + rewrite fmap_app. apply NoDup_app. split_and!; [done| |apply NoDup_singleton].
      intros k (r & -> & Hin)%list_elem_of_fmap Hk%list_elem_of_singleton.
      by apply (Hfresh r).
    + rewrite fmap_app. apply NoDup_app. split_and!; [done| |apply NoDup_singleton].
      intros k (r & -> & Hin)%list_elem_of_fmap Hk%list_elem_of_singleton.
      apply (Hother r Hin); [by apply Hfresh|done].
Qed.

(** The row a save writes points at a stored album when every row did. *)
Lemma Model_save_song_albums db s s' db' :
  Forall (λ r, is_Some (Album_objects_get_pk db (song_album r))) (songs db) →
  Model_save_song db s = inr (s', db') →
  albums db' = albums db
  ∧ Forall (λ r, is_Some (Album_objects_get_pk db (song_album r))) (songs db').
Proof.
  intros Hall. unfold Model_save_song.
  set (s0 := match song_pk s with Some _ => s | None => _ end). clearbody s0.
  destruct (unique_song_title_per_album_violated (songs db) s0); [done|].
  destruct (song_album_violated db s0) eqn:Hfk; [done|].
  assert (Hs0 : is_Some (Album_objects_get_pk db (song_album s0))).
  { unfold song_album_violated in Hfk.
    apply negb_false_iff, orb_true_iff in Hfk as [Hstored|Hrow].
    - by apply bool_decide_eq_true in Hstored.
    - apply bool_decide_eq_true, Exists_exists in Hrow as (r & Hin & _ & Halbum).
      rewrite <- Halbum. rewrite Forall_forall in Hall. by apply Hall. }
  case_bool_decide; intros [= <- <-]; (split; [done|]); simpl.
  - apply Forall_fmap, Forall_forall. intros r Hin. simpl.
    case_bool_decide; [done|]. rewrite Forall_forall in Hall. by apply Hall.
  - apply Forall_app. split; [done|]. by constructor.
Qed.

(** What [Song.save] hands to [models.Model.save]: the instance itself
    when it has a primary key. *)
Lemma Song_save_Model_save nulls_first db self s' db' :
  Song_save nulls_first db self = inr (s', db') →
  ∃ s0, Model_save_song db s0 = inr (s', db') ∧ (is_Some (song_pk self) → s0 = self).
Proof.
  unfold Song_save. case_bool_decide as Hpk; simpl.
  - case_bool_decide; simpl.
    + destruct (Song_album db self); [|done]. intros Hsave.
      eexists. split; [exact Hsave|]. rewrite Hpk. by intros [? ?].
    + intros Hsave. by exists self.
  - intros Hsave. by exists self.
Qed.

(** X5: a save that succeeds, creating or updating, keeps the constraints
    of the table of songs: every row has a primary key, no two rows share
    one, and no two rows share title and album; and when every song
    belonged to a stored album, every song still does. *)
Theorem Song_save_keeps_constraints
    (nulls_first : bool) (db : Database) (self s' : Song) (db' : Database) :
  songs_constraints (songs db) →
  Song_save nulls_first db self = inr (s', db') →
  songs_constraints (songs db')
  ∧ (Forall (λ r, ∃ a, a ∈ albums db ∧ album_pk a = song_album r) (songs db) →
     Forall (λ r, ∃ a, a ∈ albums db' ∧ album_pk a = song_album r) (songs db')).
Proof.
  intros Hc (s0 & Hsave & _)%Song_save_Model_save. split.
  - by apply (Model_save_song_constraints db s0 s').
  - intros Hall.
    destruct (Model_save_song_albums db s0 s' db') as [-> Hall']; [|done|].
    + eapply Forall_impl; [exact Hall|]. intros r (a & Hin & Ha). simpl.
      apply Album_objects_get_pk_stored, Exists_exists. eauto.
    + eapply Forall_impl; [exact Hall'|]. intros r Hr. simpl in Hr.
      apply Album_objects_get_pk_stored, Exists_exists in Hr as (a & Hin & Ha). eauto.
Qed.

Lemma Model_save_song_lookup db s s' db' :
  Model_save_song db s = inr (s', db') →
  ∃ k, song_pk s' = Some k
       ∧ Song_objects_get_pk db' k = Some s'
       ∧ (∀ k', k' ≠ k → Song_objects_get_pk db' k' = Song_objects_get_pk db k')
       ∧ (is_Some (song_pk s) → s' = s).
Proof.
  unfold Model_save_song.
  set (s0 := match song_pk s with Some _ => s | None => _ end).
  assert (Hs0 : is_Some (song_pk s0)).
  { subst s0. destruct (song_pk s) eqn:Hs; simpl; [by rewrite Hs|done]. }
  assert (Hsame : is_Some (song_pk s) → s0 = s).
  { subst s0. by intros [k ->]. }
  clearbody s0. destruct Hs0 as [k Hk].
  destruct (unique_song_title_per_album_violated (songs db) s0); [done|].
  destruct (song_album_violated db s0); [done|].
  unfold Song_objects_get_pk.
  case_bool_decide as Hrow; intros [= <- <-]; simpl; exists k; split_and!; try done.
  - rewrite Hk. clear Hsame.
    induction (songs db) as [|r l IH]; [by apply Exists_nil in Hrow|]. csimpl.
    case_bool_decide as Hr.
    + rewrite filter_cons_True by done. done.
    + rewrite filter_cons_False by (rewrite <- Hk; congruence).
      apply IH. apply Exists_cons in Hrow as [?|?]; [congruence|done].
  - intros k' Hne. rewrite Hk. clear Hrow Hsame.
    induction (songs db) as [|r l IH]; [done|]. csimpl.
    case_bool_decide as Hr.
    + rewrite !filter_cons_False by congruence. done.
    + destruct (decide (song_pk r = Some k')).
      * by rewrite !filter_cons_True.
      * by rewrite !filter_cons_False.
  - rewrite filter_app.
    assert (filter (λ r, song_pk r = Some k) (songs db) = []) as ->.
    { apply filter_none, Forall_forall. intros r Hin Hr.
      apply Hrow, Exists_exists. exists r. split; [done|congruence]. }
    by rewrite filter_cons_True.
  - intros k' Hne. rewrite filter_app, filter_cons_False by congruence.
    by rewrite filter_nil, app_nil_r.
Qed.

(** X6: after a successful save the instance is found under its primary
    key as it was saved, and every other key is found as before; an instance
    that had a primary key is stored as it is, its position not computed
    anew, even when it moved to another album.  That album must be stored:
    the database refuses to move a song to an album that is not. *)
Theorem Song_save_lookup (nulls_first : bool) (db : Database) (self s' : Song) (db' : Database) :
  (Song_save nulls_first db self = inr (s', db') →
   ∃ k, song_pk s' = Some k
        ∧ Song_objects_get_pk db' k = Some s'
        ∧ (∀ k', k' ≠ k → Song_objects_get_pk db' k' = Song_objects_get_pk db k')
        ∧ (is_Some (song_pk self) → s' = self))
  ∧ (is_Some (song_pk self) →
     Forall (λ a, album_pk a ≠ song_album self) (albums db) →
     Forall (λ r, song_pk r = song_pk self → song_album r ≠ song_album self) (songs db) →
     Song_save nulls_first db self = inl IntegrityError).
Proof.
  split.
  - intros (s0 & Hsave & Hself)%Song_save_Model_save.
    destruct (Model_save_song_lookup _ _ _ _ Hsave) as (k & Hk & Hget & Hrest & Hsame).
    exists k. split_and!; try done.
    intros Hpk. rewrite (Hself Hpk) in Hsame. by apply Hsame.
  - intros [k Hk] Hmissing Hmoved. unfold Song_save. rewrite Hk. simpl.
    unfold Model_save_song. rewrite Hk.
    destruct (unique_song_title_per_album_violated (songs db) self); [done|].
    assert (song_album_violated db self = true) as ->; [|done].
    unfold song_album_violated. apply negb_true_iff, orb_false_iff. split.
    + apply bool_decide_eq_false_2.
      intros (a & Hin & Ha)%Album_objects_get_pk_stored%Exists_exists.
      rewrite Forall_forall in Hmissing. by apply (Hmissing a).
    + apply bool_decide_eq_false_2. intros (r & Hin & Hr & Halbum)%Exists_exists.
      rewrite Forall_forall in Hmoved. by apply (Hmoved r).
Qed.

Lemma max_list_snoc l n : max_list (l ++ [n]) = max_list l `max` n.
Proof. induction l as [|x l IH]; simpl; [lia|]. rewrite IH. lia. Qed.

Lemma max_list_seq n : max_list (seq 1 n) = n.
Proof.
  induction n as [|n IH]; [done|].
  rewrite seq_S, max_list_snoc, IH. simpl. lia.
Qed.

Lemma omap_id_Some {A} (l : list A) : omap id (Some <$> l) = l.
Proof. induction l as [|x l IH]; [done|]. csimpl. by rewrite IH. Qed.

Lemma Song_objects_create_all_from nulls_first a ds :
  ∀ db cur,
    is_Some (Album_objects_get_pk db a) →
    Song_objects_filter_album db a = cur →
    position <$> cur = Some <$> seq 1 (length cur) →
    Forall (λ d, data_album d = a) ds →
    NoDup (data_title <$> ds) →
    Forall (λ d, data_title d ∉ song_title <$> cur) ds →
    ∃ ss db',
      Song_objects_create_all nulls_first db ds = inr (ss, db')
      ∧ position <$> ss = Some <$> seq (S (length cur)) (length ds)
      ∧ song_title <$> ss = data_title <$> ds
      ∧ Song_objects_filter_album db' a = (cur ++ ss)%list.
Proof.
  induction ds as [|d ds IH]; intros db cur Hstored Hcur Hpos Halbum Hnodup Hnew.
  { exists [], db. simpl. by rewrite app_nil_r. }
  apply Forall_cons in Halbum as [Ha Halbum].
  apply Forall_cons in Hnew as [Hd Hnew].
  rewrite fmap_cons in Hnodup. apply NoDup_cons in Hnodup as [Hd' Hnodup].
  pose proof (Song_objects_create_appends nulls_first db d) as Hcreate.
  rewrite Ha, Hcur in Hcreate. specialize (Hcreate Hstored).
  rewrite Hpos, first_position_desc_max, omap_id_Some, max_list_seq in Hcreate
    by (right; apply Forall_fmap, Forall_forall; by eauto).
  specialize (Hcreate ltac:(apply Forall_forall; intros r Hr Heq; apply Hd;
                             apply list_elem_of_fmap; eauto)).
  cbv zeta in Hcreate.
  set (s := set_song_pk _ _) in Hcreate. set (db1 := set_songs db _) in Hcreate.
  destruct (IH db1 (cur ++ [s])%list) as (ss & db' & Hall & Hposs & Htitles & Hfilter).
  - exact Hstored.
  - unfold Song_objects_filter_album in *. simpl. rewrite filter_app, Hcur.
    by rewrite filter_cons_True.
  - rewrite fmap_app, Hpos, length_app. simpl.
    replace (length cur + 1) with (S (length cur)) by lia.
    rewrite seq_S, fmap_app. simpl. repeat f_equal; lia.
  - done.
  - done.
  - apply Forall_forall. intros d0 Hd0. rewrite fmap_app, elem_of_app.
    intros [Hin|Hin%list_elem_of_singleton].
    + rewrite Forall_forall in Hnew. by apply (Hnew d0).
    + apply Hd'. apply list_elem_of_fmap. exists d0. split; [|done]. by rewrite Hin.
  - exists (s :: ss), db'. split_and!.
    + simpl. by rewrite Hcreate, Hall.
    + rewrite fmap_cons, Hposs, length_app. simpl.
      replace (length cur + 1) with (S (length cur)) by lia.
      repeat f_equal; lia.
    + by rewrite !fmap_cons, Htitles.
    + by rewrite Hfilter, <- app_assoc.
Qed.

(** X7: any number of songs with different titles, created one after the
    other under a stored album that no song belongs to, all get stored, with
    the positions 1, 2, ..., n in the order of creation, and they are the
    songs of the album. *)
Theorem Song_objects_create_all_positions
    (nulls_first : bool) (db : Database) (a : nat) (ds : list SongData) :
  (∃ album, album ∈ albums db ∧ album_pk album = a) →
  Forall (λ r, song_album r ≠ a) (songs db) →
  Forall (λ d, data_album d = a) ds →
  NoDup (data_title <$> ds) →
  ∃ ss db',
    Song_objects_create_all nulls_first db ds = inr (ss, db')
    ∧ position <$> ss = Some <$> seq 1 (length ds)
    ∧ song_title <$> ss = data_title <$> ds
    ∧ filter (λ r, song_album r = a) (songs db') = ss.
Proof.
  intros (album & Hin & Hstored) Hfresh Halbum Hnodup.
  destruct (Song_objects_create_all_from nulls_first a ds db [])
    as (ss & db' & ? & ? & ? & ?); try done.
  - apply Album_objects_get_pk_stored, Exists_exists. eauto.
  - by apply filter_none.
  - apply Forall_forall. intros d _. simpl. apply not_elem_of_nil.
  - by exists ss, db'.
Qed.

Lemma Fixtures_songs_constraints now v :
  songs_constraints (songs (Fixtures.db now v)).
Proof.
  split_and!; simpl.
  - repeat constructor; eauto.
  - apply NoDup_cons. split; [|apply NoDup_singleton].
    by intros [=]%list_elem_of_singleton.
  - apply NoDup_cons. split; [|apply NoDup_singleton].
    by intros [=]%list_elem_of_singleton.
Qed.

Lemma Song_save_keeps_constraints_witness :
  ∃ s' db',
    Song_save false (Samples.two_albums Fixtures.today PUBLIC) (Song_of_data Fixtures.tornado)
      = inr (s', db')
    ∧ songs_constraints (songs db').
Proof.
  eexists _, _. split; [reflexivity|].
  eapply (Song_save_keeps_constraints false (Samples.two_albums Fixtures.today PUBLIC)
            (Song_of_data Fixtures.tornado));
    [apply (Fixtures_songs_constraints Fixtures.today PUBLIC) | reflexivity].
Defined.

Lemma Song_save_lookup_witness :
  ∃ s' db',
    Song_save false (Samples.two_albums Fixtures.today PUBLIC) Samples.bakuretsu_moved
      = inr (s', db')
    ∧ ∃ k, song_pk s' = Some k
           ∧ Song_objects_get_pk db' k = Some s'
           ∧ (∀ k', k' ≠ k →
                Song_objects_get_pk db' k'
                  = Song_objects_get_pk (Samples.two_albums Fixtures.today PUBLIC) k')
           ∧ (is_Some (song_pk Samples.bakuretsu_moved) → s' = Samples.bakuretsu_moved).
Proof.
  eexists _, _. split; [reflexivity|].
  apply (Song_save_lookup false (Samples.two_albums Fixtures.today PUBLIC)
           Samples.bakuretsu_moved). reflexivity.
Defined.

Lemma Song_objects_create_all_positions_witness :
  ∃ ss db',
    Song_objects_create_all true (Samples.two_albums Fixtures.today PUBLIC)
      [Fixtures.tornado; Fixtures.inferno; Fixtures.lightning] = inr (ss, db')
    ∧ position <$> ss = [Some 1; Some 2; Some 3]
    ∧ song_title <$> ss = ["Tornado"; "Inferno"; "Lightning"]
    ∧ filter (λ r, song_album r = 2) (songs db') = ss.
Proof.
  apply (Song_objects_create_all_positions true (Samples.two_albums Fixtures.today PUBLIC) 2
           [Fixtures.tornado; Fixtures.inferno; Fixtures.lightning]).
  - exists Samples.konosuba_album. split; [|reflexivity].
    simpl. apply elem_of_cons. right. apply list_elem_of_singleton. reflexivity.
  - simpl. repeat constructor; discriminate.
  - repeat constructor.
  - apply (bool_decide_unpack _). by vm_compute.
Defined.

Lemma NoDup_fmap_eq {A B} (f : A → B) (l : list A) x y :
  NoDup (f <$> l) → x ∈ l → y ∈ l → f x = f y → x = y.
Proof.
  intros Hnodup [i Hi]%list_elem_of_lookup [j Hj]%list_elem_of_lookup Heq.
  assert (i = j) as ->; [|congruence].
  apply (proj1 (NoDup_alt _) Hnodup i j (f x)); rewrite list_lookup_fmap.
  - by rewrite Hi.
  - rewrite Hj. simpl. congruence.
Qed.

Lemma fmap_fixed {A} (f : A → A) (l : list A) :
  (∀ x, x ∈ l → f x = x) → f <$> l = l.
Proof.
  induction l as [|x l IH]; [done|]. intros Hf. csimpl.
  rewrite Hf by (apply elem_of_cons; by left).
  rewrite IH; [done|]. intros y Hy. apply Hf, elem_of_cons. by right.
Qed.

(** X8: saving a stored song again, unchanged, succeeds and leaves the
    database as it is; the instance does not collide with its own row. *)
Theorem Song_save_stored_unchanged (nulls_first : bool) (db : Database) (s : Song) :
  songs_constraints (songs db) →
  s ∈ songs db →
  Song_save nulls_first db s = inr (s, db).
Proof.
  intros (Hstored & Hpk & Hpair) Hin.
  rewrite Forall_forall in Hstored. destruct (Hstored s Hin) as [k Hk].
  unfold Song_save. rewrite Hk. simpl.
  unfold Model_save_song. rewrite Hk.
  assert (unique_song_title_per_album_violated (songs db) s = false) as ->.
  { apply bool_decide_eq_false_2.
    intros (r & Hr & Hne & Htitle & Halbum)%Exists_exists. apply Hne. f_equal.
    apply (NoDup_fmap_eq (λ r, (song_title r, song_album r)) (songs db)); try done.
    simpl. congruence. }
  assert (song_album_violated db s = false) as ->.
  { unfold song_album_violated. apply negb_false_iff, orb_true_iff. right.
    apply bool_decide_eq_true_2, Exists_exists. eauto. }
  rewrite bool_decide_eq_true_2 by (apply Exists_exists; eauto).
  do 2 f_equal.
  assert ((λ r, if bool_decide (song_pk r = song_pk s) then s else r) <$> songs db
          = songs db) as ->.
  { apply fmap_fixed. intros r Hr. case_bool_decide as Hrk; [|done].
    symmetry. by apply (NoDup_fmap_eq song_pk (songs db)). }
  by destruct db.
Qed.

Lemma Song_save_stored_unchanged_witness :
  Song_save false (Fixtures.db Fixtures.today PUBLIC) Fixtures.bakuretsu
    = inr (Fixtures.bakuretsu, Fixtures.db Fixtures.today PUBLIC).
Proof.
  apply Song_save_stored_unchanged; [apply Fixtures_songs_constraints|].
  simpl. apply elem_of_cons. right. apply list_elem_of_singleton. reflexivity.
Defined.

(** ** The table of albums *)

Lemma greatest_album_pk_le rows r : r ∈ rows → (album_pk r ≤ greatest_album_pk rows)%nat.
Proof.
  induction rows as [|x rows IH]; [by intros ?%elem_of_nil|].
  intros [->|Hin]%elem_of_cons; cbn [greatest_album_pk foldr]; [lia|].
  specialize (IH Hin). unfold greatest_album_pk in IH. lia.
Qed.

Lemma next_album_pk_fresh db r : r ∈ albums db → album_pk r ≠ next_album_pk db.
Proof.
  intros Hin. pose proof (greatest_album_pk_le _ _ Hin). unfold next_album_pk. lia.
Qed.

Lemma Album_objects_get_pk_app db rows a :
  Forall (λ r, album_pk r ≠ album_pk a) (albums db) →
  rows = (albums db ++ [a])%list →
  Album_objects_get_pk (set_albums db rows) (album_pk a) = Some a.
Proof.
  intros Hfresh ->. unfold Album_objects_get_pk. simpl.
  rewrite filter_app, filter_none by done.
  by rewrite filter_cons_True.
Qed.

Section AlbumProperties.
Variable slugify : string → string.
Variable nulls_distinct : bool.

(** X9: an album created from client data belongs to nobody: its
    [artist_account] is NULL whoever created it, so once stored only an
    Admin is granted its update or deletion, and an Artist, its creator
    included, neither finds it in their listing nor may add a song to it. *)
Theorem Album_objects_create_unowned
    (db : Database) (d : AlbumData) (a : Album) (db' : Database) (user : RequestUser) :
  Album_objects_create slugify nulls_distinct db d = inr (a, db') →
  artist_account a = None
  ∧ slug a = slugify (data_album_title d)
  ∧ Album_objects_get_pk db' (album_pk a) = Some a
  ∧ (role_of user ≠ Admin →
     AlbumUpdateView db' user (album_pk a) ≠ Granted
     ∧ AlbumDeleteView db' user (album_pk a) ≠ Granted)
  ∧ (role_of user = Artist →
     (a ∉ HomeView_get_queryset db' user) ∧ SongCreateView db' user a ≠ Granted).
Proof.
  unfold Album_objects_create, Album_save.
  set (a0 := set_slug _ _).
  destruct (unique_album_title_artist_format_violated nulls_distinct (albums db) a0); [done|].
  change (album_artist_account_violated db a0) with false. cbv iota.
  rewrite bool_decide_eq_false_2.
  2: { intros (r & Hin & Hr)%Exists_exists. by apply (next_album_pk_fresh db r). }
  intros [= <- <-].
  assert (Hget : Album_objects_get_pk (set_albums db (albums db ++ [a0])) (album_pk a0)
                 = Some a0).
  { apply Album_objects_get_pk_app; [|done].
    apply Forall_forall. intros r Hin. by apply next_album_pk_fresh. }
  split_and!; try done.
  - intros Hrole. destruct user as [|u]; [done|].
    unfold AlbumUpdateView, AlbumDeleteView, AlbumUpdateView_test_func,
      AlbumDeleteView_test_func, get_object, LoginRequiredMixin_dispatch.
    rewrite Hget. simpl. simpl in Hrole.
    destruct (groups_filter_exists u "DottifyAdmin"); [done|].
    destruct (groups_filter_exists u "Artist");
      by destruct (DottifyUser_objects_get_user _ u).
  - intros Hrole. destruct user as [|u]; [done|].
    apply role_of_Artist in Hrole as [Hadmin Hartist].
    unfold SongCreateView, SongCreateView_form_valid, IsArtistOrAdminMixin_test_func,
      groups_filter_in_exists. simpl. rewrite Hadmin, Hartist. simpl.
    destruct (DottifyUser_objects_get_user _ u) as [du|]; [|split; [|done]].
    + split; [|done]. by intros [[=] _]%list_elem_of_filter.
    + apply not_elem_of_nil.
Qed.

(** X10: the slug an instance carries never reaches the table: a save
    gives the same result whatever slug was set on the instance, and the row
    it stores, found again under its primary key, has the slug of its
    title. *)
Theorem Album_save_slug (db : Database) (self : Album) (s : string) :
  Album_save slugify nulls_distinct db (set_slug self s) = Album_save slugify nulls_distinct db self
  ∧ ∀ a db', Album_save slugify nulls_distinct db self = inr (a, db') →
             a = set_slug self (slugify (title self))
             ∧ Album_objects_get_pk db' (album_pk self) = Some a.
Proof.
  split; [done|].
  intros a db'. unfold Album_save.
  set (a0 := set_slug _ _).
  destruct (unique_album_title_artist_format_violated nulls_distinct (albums db) a0); [done|].
  destruct (album_artist_account_violated db a0); [done|].
  case_bool_decide as Hrow; intros [= <- <-]; (split; [done|]).
  - unfold Album_objects_get_pk. simpl.
    induction (albums db) as [|r l IH]; [by apply Exists_nil in Hrow|]. csimpl.
    case_bool_decide as Hr.
    + by rewrite filter_cons_True.
    + rewrite filter_cons_False by done.
      apply IH. apply Exists_cons in Hrow as [?|?]; [done|done].
  - change (album_pk self) with (album_pk a0).
    apply Album_objects_get_pk_app; [|done].
    apply Forall_forall. intros r Hin Hr. apply Hrow, Exists_exists. eauto.
Qed.

(** X11: a second album with the title, the artist name and the format of
    a stored one, the format not being NULL, is refused with an integrity
    error. *)
Theorem Album_objects_create_duplicate (db : Database) (d : AlbumData) (r : Album) :
  r ∈ albums db →
  title r = data_album_title d →
  artist_name r = data_artist_name d →
  format r = data_format d →
  is_Some (data_format d) →
  Album_objects_create slugify nulls_distinct db d = inl IntegrityError.
Proof.
  intros Hin Htitle Hartist Hformat Hsome.
  unfold Album_objects_create, Album_save.
  set (a0 := set_slug _ _).
  assert (unique_album_title_artist_format_violated nulls_distinct (albums db) a0 = true)
    as ->; [|done].
  apply bool_decide_eq_true_2, Exists_exists. exists r. split; [done|].
  split_and!; try done.
  - simpl. by apply next_album_pk_fresh.
  - by left.
Qed.

(** X12: where two NULLs are distinct in a unique index, the constraint
    never refuses an album without format: any number of albums may share
    title and artist name as long as their format is empty. *)
Theorem Album_objects_create_without_format (db : Database) (d : AlbumData) :
  nulls_distinct = true →
  data_format d = None →
  ∃ a, Album_objects_create slugify nulls_distinct db d
       = inr (a, set_albums db (albums db ++ [a]))
       ∧ title a = data_album_title d ∧ artist_name a = data_artist_name d
       ∧ format a = None.
Proof.
  intros Hnulls Hformat. unfold Album_objects_create, Album_save.
  set (a0 := set_slug _ _). exists a0.
  assert (unique_album_title_artist_format_violated nulls_distinct (albums db) a0 = false)
    as ->.
  { apply bool_decide_eq_false_2.
    intros (r & _ & _ & _ & _ & _ & [[f Hf]|Hfalse])%Exists_exists.
    - simpl in Hf. congruence.
    - congruence. }
  change (album_artist_account_violated db a0) with false. cbv iota.
  rewrite bool_decide_eq_false_2; [done|].
  intros (r & Hin & Hr)%Exists_exists. by apply (next_album_pk_fresh db r).
Qed.
End AlbumProperties.

(** ** Deleting an album *)

Lemma Album_delete_get_other db pk k :
  k ≠ pk → Album_objects_get_pk (Album_delete db pk) k = Album_objects_get_pk db k.
Proof.
  intros Hne. unfold Album_objects_get_pk. simpl. f_equal.
  induction (albums db) as [|a l IH]; [done|].
  destruct (decide (album_pk a = pk)) as [Ha|Ha].
  - rewrite (filter_cons_False (λ a, album_pk a ≠ pk)) by auto.
    rewrite filter_cons_False by congruence. done.
  - rewrite (filter_cons_True (λ a, album_pk a ≠ pk)) by done.
    destruct (decide (album_pk a = k)).
    + rewrite !filter_cons_True by done. by rewrite IH.
    + by rewrite !filter_cons_False.
Qed.

(** X13: deleting an album takes its songs, its ratings and the playlist
    entries of its songs with it and so leaves no foreign key pointing at a
    deleted row; the album and its songs are gone, every other album and
    its songs are as before. *)
Theorem Album_delete_cascade (db : Database) (pk : nat) :
  referential_integrity db →
  referential_integrity (Album_delete db pk)
  ∧ Album_objects_get_pk (Album_delete db pk) pk = None
  ∧ Song_objects_filter_album (Album_delete db pk) pk = []
  ∧ (∀ k, k ≠ pk →
       Album_objects_get_pk (Album_delete db pk) k = Album_objects_get_pk db k
       ∧ Song_objects_filter_album (Album_delete db pk) k = Song_objects_filter_album db k).
Proof.
  intros (Hsongs & Hratings & Hplaylists). split_and!.
  - split_and!.
    + simpl. apply Forall_forall. intros s [Halbum Hin]%list_elem_of_filter.
      rewrite Album_delete_get_other by done.
      rewrite Forall_forall in Hsongs. by apply Hsongs.
    + simpl. apply Forall_forall. intros r [Halbum Hin]%list_elem_of_filter a Ha.
      rewrite Album_delete_get_other by congruence.
      rewrite Forall_forall in Hratings. by apply (Hratings r).
    + simpl. apply Forall_fmap, Forall_forall. intros p Hp. simpl.
      apply Forall_forall. intros k [Hkept Hk]%list_elem_of_filter.
      rewrite Forall_forall in Hplaylists. specialize (Hplaylists p Hp).
      rewrite Forall_forall in Hplaylists. specialize (Hplaylists k Hk).
      apply is_Some_head_filter in Hplaylists as (s & Hin & Hs).
      apply is_Some_head_filter. exists s. split; [|done].
      apply list_elem_of_filter. split; [|done].
      intros Halbum. apply Hkept. rewrite <- Hs.
      apply list_elem_of_fmap. exists s. split; [done|].
      by apply list_elem_of_filter.
  - unfold Album_objects_get_pk. simpl. rewrite filter_none; [done|].
    apply Forall_forall. by intros a [? _]%list_elem_of_filter.
  - unfold Song_objects_filter_album. simpl. rewrite filter_none; [done|].
    apply Forall_forall. by intros s [? _]%list_elem_of_filter.
  - intros k Hne. split; [by apply Album_delete_get_other|].
    unfold Song_objects_filter_album. simpl. clear Hsongs Hratings Hplaylists.
    induction (songs db) as [|s l IH]; [done|].
    destruct (decide (song_album s = k)) as [Hs|Hs].
    + rewrite (filter_cons_True (λ s, song_album s ≠ pk)) by congruence.
      rewrite 2!(filter_cons_True (λ r, song_album r = k)) by done. by rewrite IH.
    + rewrite (filter_cons_False (λ r, song_album r = k) s l) by done.
      destruct (decide (song_album s = pk)).
      * by rewrite (filter_cons_False (λ s, song_album s ≠ pk)) by auto.
      * rewrite (filter_cons_True (λ s, song_album s ≠ pk)) by done.
        by rewrite (filter_cons_False (λ r, song_album r = k)).
Qed.

Lemma AlbumDeleteView_granted db user pk :
  AlbumDeleteView db user pk = Granted →
  ∃ a, Album_objects_get_pk db pk = Some a
       ∧ (role_of user = Admin
          ∨ ∃ d, profile_of db user = Some d ∧ artist_account a = Some (du_pk d)).
Proof.
  destruct user as [|u]; [done|].
  unfold AlbumDeleteView, AlbumDeleteView_test_func, get_object. simpl.
  destruct (Album_objects_get_pk db pk) as [a|]; [simpl|done].
  intros Hgranted. exists a. split; [done|].
  destruct (groups_filter_exists u "DottifyAdmin"); [by left|right].
  destruct (DottifyUser_objects_get_user db u) as [d|]; [|done].
  destruct (artist_account_is a d) eqn:Ha; [|done].
  exists d. split; [done|]. by apply artist_account_is_true.
Qed.

(** X14: a POST to the delete view either leaves the database as it is,
    or access was granted, which takes a stored album and a principal who
    is Admin or whose profile is the album's [artist_account]; then the
    album is deleted with what hangs on it. *)
Theorem AlbumDeleteView_post_effect
    (db : Database) (user : RequestUser) (pk : nat) (access : Access) (db' : Database) :
  AlbumDeleteView_post db user pk = (access, db') →
  (access ≠ Granted ∧ db' = db)
  ∨ (access = Granted ∧ db' = Album_delete db pk
     ∧ ∃ a, Album_objects_get_pk db pk = Some a
            ∧ (role_of user = Admin
               ∨ ∃ d, profile_of db user = Some d ∧ artist_account a = Some (du_pk d))).
Proof.
  unfold AlbumDeleteView_post.
  destruct (AlbumDeleteView db user pk) eqn:Haccess; intros [= <- <-];
    try (left; split; [discriminate|reflexivity]).
  right. split_and!; try done. by apply AlbumDeleteView_granted.
Qed.

Lemma AlbumDeleteView_post_effect_witness :
  AlbumDeleteView_post (Fixtures.db Fixtures.today PUBLIC) (Authenticated Fixtures.kazuma) 1
    = (PermissionDenied, Fixtures.db Fixtures.today PUBLIC)
  ∧ ((PermissionDenied ≠ Granted
      ∧ Fixtures.db Fixtures.today PUBLIC = Fixtures.db Fixtures.today PUBLIC)
     ∨ (PermissionDenied = Granted
        ∧ Fixtures.db Fixtures.today PUBLIC
          = Album_delete (Fixtures.db Fixtures.today PUBLIC) 1
        ∧ ∃ a, Album_objects_get_pk (Fixtures.db Fixtures.today PUBLIC) 1 = Some a
               ∧ (role_of (Authenticated Fixtures.kazuma) = Admin
                  ∨ ∃ d, profile_of (Fixtures.db Fixtures.today PUBLIC)
                           (Authenticated Fixtures.kazuma) = Some d
                         ∧ artist_account a = Some (du_pk d)))).
Proof.
  split; [reflexivity|].
  apply (AlbumDeleteView_post_effect (Fixtures.db Fixtures.today PUBLIC)
           (Authenticated Fixtures.kazuma) 1). reflexivity.
Defined.

Lemma Fixtures_referential_integrity now v :
  referential_integrity (Fixtures.db now v).
Proof.
  split_and!; simpl.
  - repeat constructor; by eexists.
  - repeat constructor; intros a [= <-]; by eexists.
  - repeat constructor.
Qed.

Lemma Album_delete_cascade_witness :
  referential_integrity (Album_delete (Fixtures.db Fixtures.today PUBLIC) 1)
  ∧ Album_objects_get_pk (Album_delete (Fixtures.db Fixtures.today PUBLIC) 1) 1 = None.
Proof.
  destruct (Album_delete_cascade (Fixtures.db Fixtures.today PUBLIC) 1)
    as (Hintegrity & Hgone & _); [apply Fixtures_referential_integrity|].
  by split.
Defined.

(** ** The songs of an album in the API *)

#[local] Instance Song_le_total nulls_largest : Total (Song_le nulls_largest).
Proof. intros s1 s2. unfold Song_le, key_le. lia. Qed.

Lemma Song_default_ordering_elem_of nulls_largest rows s :
  s ∈ Song_default_ordering nulls_largest rows ↔ s ∈ rows.
Proof. unfold Song_default_ordering. by rewrite merge_sort_Permutation. Qed.

Lemma head_filter_key {A} (key : A → option nat) (Q : A → Prop) `{!∀ x, Decision (Q x)}
    (l : list A) (k : nat) (x : A) :
  NoDup (key <$> l) →
  head (filter (λ y, key y = Some k) l) = Some x →
  head (filter (λ y, key y = Some k ∧ Q y) l) = if decide (Q x) then Some x else None.
Proof.
  induction l as [|y l IH]; [done|].
  rewrite fmap_cons, NoDup_cons. intros [Hy Hnodup].
  destruct (decide (key y = Some k)) as [Hk|Hk].
  - rewrite (filter_cons_True (λ y, key y = Some k)) by done. simpl. intros [= <-].
    destruct (decide (Q y)).
    + by rewrite filter_cons_True.
    + rewrite filter_cons_False by (by intros [_ ?]).
      rewrite filter_none; [done|]. apply Forall_forall. intros z Hz [Hzk _].
      apply Hy. rewrite Hk, <- Hzk. apply list_elem_of_fmap. eauto.
  - rewrite (filter_cons_False (λ y, key y = Some k)) by done.
    rewrite filter_cons_False by (by intros [? _]). by apply IH.
Qed.

Lemma head_filter_key_None {A} (key : A → option nat) (Q : A → Prop)
    `{!∀ x, Decision (Q x)} (l : list A) (k : nat) :
  head (filter (λ y, key y = Some k) l) = None →
  head (filter (λ y, key y = Some k ∧ Q y) l) = None.
Proof.
  induction l as [|y l IH]; [done|].
  destruct (decide (key y = Some k)) as [Hk|Hk].
  - by rewrite (filter_cons_True (λ y, key y = Some k)).
  - rewrite (filter_cons_False (λ y, key y = Some k)) by done.
    rewrite filter_cons_False by (by intros [? _]). by apply IH.
Qed.

(** X15: the nested route finds a song only under its own album: asked
    under any other album, a stored song is answered like a song that does
    not exist, while the flat route finds it. *)
Theorem NestedSongViewSet_retrieve_scoped
    (db : Database) (user : RequestUser) (pk album_pk : nat) :
  NoDup (song_pk <$> songs db) →
  NestedSongViewSet_retrieve db pk album_pk =
    match Song_objects_get_pk db pk with
    | Some s =>
        if decide (song_album s = album_pk)
        then HttpResponseOK (SongSerializer_data s)
        else HttpResponseNotFound
    | None => HttpResponseNotFound
    end
  ∧ (is_Some (Song_objects_get_pk db pk) → SongViewSet db user (retrieve pk) = Granted).
Proof.
  intros Hnodup. split.
  - unfold NestedSongViewSet_retrieve, Song_objects_get_pk.
    destruct (head (filter (λ s, song_pk s = Some pk) (songs db))) as [s|] eqn:Hget.
    + rewrite (head_filter_key song_pk (λ s, song_album s = album_pk) _ _ _ Hnodup Hget).
      by destruct (decide (song_album s = album_pk)).
    + by rewrite (head_filter_key_None song_pk (λ s, song_album s = album_pk) _ _ Hget).
  - intros [s Hs]. unfold SongViewSet, ModelViewSet. simpl. by rewrite Hs.
Qed.

Lemma NestedSongViewSet_retrieve_scoped_witness :
  NestedSongViewSet_retrieve (Fixtures.db Fixtures.today PUBLIC) 1 2 = HttpResponseNotFound
  ∧ NestedSongViewSet_retrieve (Fixtures.db Fixtures.today PUBLIC) 1 1
    = HttpResponseOK (SongSerializer_data Fixtures.chunchunmaru).
Proof.
  destruct (NestedSongViewSet_retrieve_scoped (Fixtures.db Fixtures.today PUBLIC)
              AnonymousUser 1 2) as [Hother _];
    [apply Fixtures_songs_constraints|].
  destruct (NestedSongViewSet_retrieve_scoped (Fixtures.db Fixtures.today PUBLIC)
              AnonymousUser 1 1) as [Hown _];
    [apply Fixtures_songs_constraints|].
  split; [exact Hother|exact Hown].
Defined.

(** X16: the nested listing of an album holds exactly the stored songs of
    that album, in the default ordering of songs; under an album that is not
    stored it is the empty list, answered with status 200. *)
Theorem NestedSongViewSet_list_scoped (nulls_largest : bool) (db : Database) (album_pk : nat) :
  (∀ s, s ∈ NestedSongViewSet_get_queryset nulls_largest db album_pk
        ↔ s ∈ songs db ∧ song_album s = album_pk)
  ∧ Sorted (Song_le nulls_largest) (NestedSongViewSet_get_queryset nulls_largest db album_pk)
  ∧ length (NestedSongViewSet_get_queryset nulls_largest db album_pk)
    = length (Song_objects_filter_album db album_pk)
  ∧ (referential_integrity db → Album_objects_get_pk db album_pk = None →
     NestedSongViewSet_list nulls_largest db album_pk = HttpResponseOK []).
Proof.
  unfold NestedSongViewSet_list, NestedSongViewSet_get_queryset. split_and!.
  - intros s. rewrite Song_default_ordering_elem_of.
    unfold Song_objects_filter_album. rewrite list_elem_of_filter. tauto.
  - apply Sorted_merge_sort, _.
  - unfold Song_default_ordering. by rewrite merge_sort_Permutation.
  - intros (Hsongs & _) Hnone.
    assert (Song_objects_filter_album db album_pk = []) as ->; [|done].
    apply filter_none, Forall_forall. intros s Hin Hs.
    rewrite Forall_forall in Hsongs. specialize (Hsongs s Hin).
    rewrite Hs, Hnone in Hsongs. by destruct Hsongs.
Qed.

Lemma NestedSongViewSet_list_scoped_witness :
  NestedSongViewSet_list false (Fixtures.db Fixtures.today PUBLIC) 7 = HttpResponseOK [].
Proof.
  destruct (NestedSongViewSet_list_scoped false (Fixtures.db Fixtures.today PUBLIC) 7)
    as (_ & _ & _ & Hempty).
  apply Hempty; [apply Fixtures_referential_integrity | reflexivity].
Defined.

(** ** Playlists in the API and the statistics *)

(** X17: the API lists Public playlists only, and with unique primary keys
    it retrieves exactly what it lists: a playlist is returned for an id if
    and only if it is in the listing under that id. *)
Theorem PlaylistViewSet_list_retrieve
    (db : Database) (user : RequestUser) (pk : nat) (p : Playlist) :
  NoDup (playlist_pk <$> playlists db) →
  (PlaylistViewSet_retrieve db user pk = HttpResponseOK p
   ↔ p ∈ PlaylistViewSet_get_queryset db ∧ playlist_pk p = pk)
  ∧ Forall (λ p, visibility p = PUBLIC) (PlaylistViewSet_get_queryset db).
Proof.
  intros Hnodup. split.
  - unfold PlaylistViewSet_retrieve, Playlist_objects_get_pk.
    set (listed := PlaylistViewSet_get_queryset db).
    destruct (head (filter (λ p, playlist_pk p = pk) listed)) as [x|] eqn:Hhead.
    + assert (Hx : x ∈ filter (λ p, playlist_pk p = pk) listed).
      { destruct (filter _ listed); [done|]. simpl in Hhead. simplify_eq.
        apply elem_of_cons. by left. }
      apply list_elem_of_filter in Hx as [Hxpk Hx].
      split; [by intros [= <-]|]. intros [Hp Hppk]. f_equal.
      apply (NoDup_fmap_eq playlist_pk (playlists db)); try done.
      * by apply list_elem_of_filter in Hx as [_ ?].
      * by apply list_elem_of_filter in Hp as [_ ?].
      * congruence.
    + split; [done|]. intros [Hp Hppk].
      assert (Hin : p ∈ filter (λ p, playlist_pk p = pk) listed)
        by by apply list_elem_of_filter.
      destruct (filter _ listed); [by apply elem_of_nil in Hin|done].
  - apply Forall_forall. by intros x [? _]%list_elem_of_filter.
Qed.

Lemma PlaylistViewSet_list_retrieve_witness :
  PlaylistViewSet_retrieve (Fixtures.db Fixtures.today PUBLIC) AnonymousUser 1
    = HttpResponseOK (Fixtures.degen PUBLIC).
Proof.
  destruct (PlaylistViewSet_list_retrieve (Fixtures.db Fixtures.today PUBLIC)
              AnonymousUser 1 (Fixtures.degen PUBLIC)) as [[_ Hlisted] _].
  - simpl. apply NoDup_singleton.
  - apply Hlisted. split; [|reflexivity].
    apply list_elem_of_filter. split; [reflexivity|].
    apply list_elem_of_singleton. reflexivity.
Defined.

Lemma inject_Z_length_cons {A} (x : A) (l : list A) :
  (inject_Z (Z.of_nat (length (x :: l))) == inject_Z (Z.of_nat (length l)) + 1)%Q.
Proof.
  cbn [length]. rewrite Nat2Z.inj_succ. unfold Qeq. simpl. lia.
Qed.

Lemma sum_between (lo hi : Q) (values : list Q) :
  Forall (λ v, (lo <= v)%Q ∧ (v <= hi)%Q) values →
  (lo * inject_Z (Z.of_nat (length values)) <= foldr Qplus 0 values)%Q
  ∧ (foldr Qplus 0 values <= hi * inject_Z (Z.of_nat (length values)))%Q.
Proof.
  induction 1 as [|v l [Hlo Hhi] _ [IHlo IHhi]].
  - simpl. split; ring_simplify; apply Qle_refl.
  - rewrite inject_Z_length_cons. cbn [foldr]. split.
    + rewrite Qmult_plus_distr_r, Qmult_1_r, Qplus_comm. by apply Qplus_le_compat.
    + rewrite Qmult_plus_distr_r, Qmult_1_r, (Qplus_comm _ hi). by apply Qplus_le_compat.
Qed.

(** An average lies between any two bounds of the values that the backend
    hands on as they are. *)
Lemma Avg_between (number : Q → Q) (lo hi : Q) (values : list Q) (avg : Q) :
  (∀ q1 q2 : Q, (q1 <= q2)%Q → (number q1 <= number q2)%Q) →
  (number lo == lo)%Q → (number hi == hi)%Q →
  Forall (λ v, (lo <= v)%Q ∧ (v <= hi)%Q) values →
  Avg number values = Some avg →
  (lo <= avg)%Q ∧ (avg <= hi)%Q.
Proof.
  intros Hmonotone Hlo Hhi Hall. destruct (sum_between lo hi values Hall) as [Hsumlo Hsumhi].
  destruct values as [|v l]; [done|]. intros [= <-].
  assert (Hn : (0 < inject_Z (Z.of_nat (length (v :: l))))%Q).
  { unfold Qlt. simpl. lia. }
  split.
  - rewrite <- Hlo. apply Hmonotone. by apply Qle_shift_div_l.
  - rewrite <- Hhi. apply Hmonotone. by apply Qle_shift_div_r.
Qed.

(** X18: the statistics count the profiles, the albums and what the API
    lists as playlists; the average song length they report is 0 when there
    is no song and else the float of the mean of the lengths, so it lies
    between any two bounds of the lengths (fewer than 16 digits long): it
    is at least 10 when every song has the least length the model field
    validates. *)
Theorem StatisticsAPIView_get_figures (db : Database) :
  ∃ st, StatisticsAPIView_get db = HttpResponseOK st
    ∧ user_count st = length (dottify_users db)
    ∧ album_count st = length (albums db)
    ∧ playlist_count st = length (PlaylistViewSet_get_queryset db)
    ∧ (playlist_count st ≤ length (playlists db))%nat
    ∧ (songs db = [] → song_length_average st = 0%Q)
    ∧ (∀ m : Q,
         songs db ≠ [] →
         is_mean ((λ s, inject_Z (Z.of_nat (song_length s))) <$> songs db) m →
         (song_length_average st == avg_float (backend db) m)%Q)
    ∧ (∀ lo hi : nat,
         songs db ≠ [] →
         (Z.of_nat hi < 10 ^ 15)%Z →
         Forall (λ s, (lo ≤ song_length s ≤ hi)%nat) (songs db) →
         (inject_Z (Z.of_nat lo) <= song_length_average st)%Q
         ∧ (song_length_average st <= inject_Z (Z.of_nat hi))%Q).
Proof.
  eexists. split; [reflexivity|]. cbn [user_count album_count playlist_count song_length_average].
  split_and!.
  - done.
  - done.
  - done.
  - apply length_filter.
  - by intros ->.
  - intros m Hsome Hm. destruct (songs db) as [|s l]; [done|].
    rewrite fmap_cons in *. unfold Avg.
    by apply avg_float_proper, is_mean_quotient.
  - intros lo hi Hsome Hhi Hall.
    destruct (Avg _ _) as [avg|] eqn:Havg.
    + assert (lo ≤ hi)%nat.
      { destruct (songs db) as [|s l]; [done|]. apply Forall_cons in Hall as [? _]. lia. }
      eapply (Avg_between (avg_float (backend db))); [| | | |exact Havg].
      * apply avg_float_monotone.
      * apply avg_float_integers. lia.
      * apply avg_float_integers. lia.
      * apply Forall_fmap. eapply Forall_impl; [exact Hall|].
        intros s [? ?]. simpl. rewrite <- !Zle_Qle. lia.
    + by destruct (songs db).
Qed.

Lemma StatisticsAPIView_get_figures_witness :
  ∃ st, StatisticsAPIView_get (Fixtures.db Fixtures.today PUBLIC) = HttpResponseOK st
        ∧ (inject_Z 281 <= song_length_average st)%Q
        ∧ (song_length_average st <= inject_Z 540)%Q.
Proof.
  destruct (StatisticsAPIView_get_figures (Fixtures.db Fixtures.today PUBLIC))
    as (st & Hget & _ & _ & _ & _ & _ & _ & Hbounds).
  exists st. split; [exact Hget|].
  apply (Hbounds 281 540); [discriminate|reflexivity|].
  simpl. repeat constructor; simpl; lia.
Defined.

(** ** The home page *)

(** X19: the context of the home page counts the albums it lists, holds
    the songs (all of them) for an Admin alone, and lists a playlist exactly
    when it is stored and the role allows it: Public for a Guest, owned by
    the caller's profile for a Member or an Artist, any for an Admin. *)
Theorem HomeView_get_context_data_scope
    (nulls_largest : bool) (db : Database) (user : RequestUser) :
  let context := HomeView_get_context_data nulls_largest db user in
  home_total_results context = length (HomeView_get_queryset db user)
  ∧ (is_Some (home_songs context) ↔ role_of user = Admin)
  ∧ (∀ ss s, home_songs context = Some ss → (s ∈ ss ↔ s ∈ songs db))
  ∧ (∀ p, p ∈ home_playlists context ↔
          p ∈ playlists db
          ∧ match role_of user with
            | Guest => visibility p = PUBLIC
            | Admin => True
            | Member | Artist => ∃ d, profile_of db user = Some d ∧ owner p = du_pk d
            end).
Proof.
  destruct user as [|u]; simpl.
  - split; [done|]. split; [|split].
    + split; [by intros [? ?]|done].
    + done.
    + intros p. rewrite list_elem_of_filter. tauto.
  - destruct (groups_filter_exists u "DottifyAdmin") eqn:Hadmin.
    + split; [done|]. split; [|split].
      * split; [done|by eexists].
      * intros ss s [= <-]. apply Song_default_ordering_elem_of.
      * intros p. tauto.
    + assert (Hplaylists : ∀ p,
                p ∈ match DottifyUser_objects_get_user db u with
                    | Some d => filter (λ p, owner p = du_pk d) (playlists db)
                    | None => []
                    end
                ↔ p ∈ playlists db
                  ∧ ∃ d, DottifyUser_objects_get_user db u = Some d ∧ owner p = du_pk d).
      { intros p. destruct (DottifyUser_objects_get_user db u) as [d|].
        - rewrite list_elem_of_filter. split.
          + intros [? ?]. eauto.
          + intros [? (d' & [= <-] & ?)]. done.
        - split; [by intros ?%elem_of_nil|]. by intros [_ (d' & ? & _)]. }
      destruct (groups_filter_exists u "Artist");
        (split; [done|]); (split; [|split]); try done;
        (split; [by intros [? ?]|done]).
Qed.

(** ** The profile page *)

Section ProfilePage.
Variable slugify : string → string.

(** X20: a redirect of the profile page leads to a page that is shown: it
    keeps the id, carries a slug other than the one asked with, and the
    request it names is answered with the profile and its playlists, not
    with another redirect. *)
Theorem user_detail_redirect_target
    (db : Database) (pk : nat) (slug : option string) (url : Url) :
  user_detail slugify db pk slug = HttpResponseRedirect url →
  ∃ s d,
    url = url_user_detail_slug pk s
    ∧ slug ≠ Some s
    ∧ DottifyUser_objects_get_pk db pk = Some d
    ∧ user_detail slugify db pk (Some s)
      = HttpResponseOK
          {| detail_dottify_user := d;
             detail_playlists := filter (λ p, owner p = du_pk d) (playlists db) |}.
Proof.
  unfold user_detail.
  destruct (DottifyUser_objects_get_pk db pk) as [d|] eqn:Hget; [|done].
  case_bool_decide as Hslug; [|done].
  unfold redirect_user_detail_slug, reverse_user_detail_slug.
  destruct (SlugConverter_matches _); [|done]. intros [= <-].
  exists (slugify (display_name d)), d. split_and!; try done.
  by rewrite bool_decide_eq_false_2 by (by intros []).
Qed.

(** X21: the profile page, shown under its slug to whoever asks, lists
    every playlist of the profile whatever its visibility: also the Hidden
    and Unlisted ones, which the home page keeps from a Guest. *)
Theorem user_detail_lists_every_playlist
    (db : Database) (pk : nat) (d : DottifyUser) (p : Playlist) :
  DottifyUser_objects_get_pk db pk = Some d →
  p ∈ playlists db →
  owner p = du_pk d →
  (∃ context,
     user_detail slugify db pk (Some (slugify (display_name d))) = HttpResponseOK context
     ∧ p ∈ detail_playlists context)
  ∧ (visibility p ≠ PUBLIC → p ∉ HomeView_playlists db AnonymousUser).
Proof.
  intros Hget Hin Howner. split.
  - rewrite (user_detail_renders slugify db pk d Hget). eexists. split; [done|].
    simpl. by apply list_elem_of_filter.
  - intros Hhidden [? _]%list_elem_of_filter. done.
Qed.
End ProfilePage.

Lemma user_detail_redirect_target_witness :
  ∃ s d,
    url_user_detail_slug 1 "explosion" = url_user_detail_slug 1 s
    ∧ None ≠ Some s
    ∧ DottifyUser_objects_get_pk (Fixtures.db Fixtures.today HIDDEN) 1 = Some d
    ∧ user_detail slugify_ascii (Fixtures.db Fixtures.today HIDDEN) 1 (Some s)
      = HttpResponseOK
          {| detail_dottify_user := d;
             detail_playlists :=
               filter (λ p, owner p = du_pk d)
                 (playlists (Fixtures.db Fixtures.today HIDDEN)) |}.
Proof.
  apply (user_detail_redirect_target slugify_ascii (Fixtures.db Fixtures.today HIDDEN)
           1 None). reflexivity.
Defined.

Lemma user_detail_lists_every_playlist_witness :
  (∃ context,
     user_detail slugify_ascii (Fixtures.db Fixtures.today HIDDEN) 1
       (Some (slugify_ascii (display_name Fixtures.explosion_profile)))
       = HttpResponseOK context
     ∧ Fixtures.degen HIDDEN ∈ detail_playlists context)
  ∧ (visibility (Fixtures.degen HIDDEN) ≠ PUBLIC →
     Fixtures.degen HIDDEN ∉ HomeView_playlists (Fixtures.db Fixtures.today HIDDEN)
                              AnonymousUser).
Proof.
  apply (user_detail_lists_every_playlist slugify_ascii
           (Fixtures.db Fixtures.today HIDDEN) 1 Fixtures.explosion_profile
           (Fixtures.degen HIDDEN)).
  - reflexivity.
  - simpl. apply list_elem_of_singleton. reflexivity.
  - reflexivity.
Defined.

(** ** Slugs the route accepts *)

Lemma all_chars_filter_chars p s : all_chars p (filter_chars p s) = true.
Proof.
  induction s as [|c s IH]; [done|]. simpl.
  destruct (p c) eqn:Hc; [|done]. simpl. by rewrite Hc.
Qed.

Lemma all_chars_collapse_runs in_run s :
  all_chars (λ c, is_word c || is_space c || is_hyphen c) s = true →
  all_chars (λ c, is_hyphen c || is_word c) (collapse_runs in_run s) = true.
Proof.
  revert in_run. induction s as [|c s IH]; [done|]. intros in_run. simpl.
  intros [Hc Hs]%andb_true_iff.
  destruct (is_hyphen c || is_space c) eqn:Hrun.
  - destruct in_run; simpl; auto.
  - simpl. rewrite IH by done.
    apply orb_false_iff in Hrun as [Hh Hsp]. rewrite Hh, Hsp in Hc.
    rewrite !orb_false_r in Hc. by rewrite Hh, Hc.
Qed.

Lemma all_chars_lstrip q p s : all_chars q s = true → all_chars q (lstrip p s) = true.
Proof.
  induction s as [|c s IH]; [done|]. simpl. intros Hcs.
  destruct (p c); [|done]. apply IH. by apply andb_true_iff in Hcs as [_ ?].
Qed.

Lemma all_chars_rstrip q p s : all_chars q s = true → all_chars q (rstrip p s) = true.
Proof.
  induction s as [|c s IH]; [done|]. simpl. intros [Hc Hs]%andb_true_iff.
  specialize (IH Hs). destruct (rstrip p s) as [|c' r].
  - destruct (p c); [done|]. simpl. by rewrite Hc.
  - simpl in IH. simpl. by rewrite Hc, IH.
Qed.

Lemma slugify_ascii_chars value :
  all_chars (λ c, is_hyphen c || is_word c) (slugify_ascii value) = true.
Proof.
  unfold slugify_ascii, strip_hyphen_underscore.
  apply all_chars_rstrip, all_chars_lstrip, all_chars_collapse_runs, all_chars_filter_chars.
Qed.

(** X22: on ASCII text, the slug of a display name is empty or one the
    route of the profile page accepts; so a request for a stored profile
    with an ASCII display name fails on the redirect exactly when the name
    has no letter, digit or underscore to make a slug of. *)
Theorem user_detail_no_reverse_iff (db : Database) (pk : nat) (slug : option string) :
  (∀ value, is_ascii value = true →
            SlugConverter_matches (slugify_ascii value)
            = negb (bool_decide (slugify_ascii value = EmptyString)))
  ∧ (∀ d, DottifyUser_objects_get_pk db pk = Some d →
          is_ascii (display_name d) = true →
          (user_detail slugify_ascii db pk slug = ServerError NoReverseMatch
           ↔ slugify_ascii (display_name d) = EmptyString ∧ slug ≠ Some EmptyString)).
Proof.
  assert (Hmatch : ∀ value, SlugConverter_matches (slugify_ascii value)
                            = negb (bool_decide (slugify_ascii value = EmptyString))).
  { intros value. unfold SlugConverter_matches.
    by rewrite slugify_ascii_chars, andb_true_r. }
  split; [by intros value _|].
  intros d Hget _. unfold user_detail. rewrite Hget.
  unfold redirect_user_detail_slug, reverse_user_detail_slug. rewrite Hmatch.
  case_bool_decide as Hslug.
  - case_bool_decide as Hempty; simpl; split; try done.
    + intros _. split; [done|]. by rewrite <- Hempty.
    + by intros [? _].
  - split; [done|]. intros [Hempty Hne]. congruence.
Qed.

Lemma user_detail_no_reverse_iff_witness :
  user_detail slugify_ascii (Fixtures.db Fixtures.today PUBLIC) 3 None
    = ServerError NoReverseMatch.
Proof.
  destruct (user_detail_no_reverse_iff (Fixtures.db Fixtures.today PUBLIC) 3 None)
    as [_ Hfails].
  apply (Hfails Fixtures.aqua_profile); [reflexivity | reflexivity |].
  split; [reflexivity|discriminate].
Defined.

(** ** Averages of validated ratings *)

Lemma or_zero_Avg_between (b : Backend) (values : list Q) :
  Forall (λ v, (0 <= v)%Q ∧ (v <= 5)%Q) values →
  (0 <= or_zero (Avg (avg_decimal b) values))%Q
  ∧ (or_zero (Avg (avg_decimal b) values) <= 5)%Q.
Proof.
  intros Hall. destruct (Avg (avg_decimal b) values) as [avg|] eqn:Havg; simpl; [|done].
  destruct (Qeq_bool avg 0); [done|].
  apply (Avg_between (avg_decimal b) 0 5 values); try done.
  - apply avg_decimal_monotone.
  - rewrite (avg_decimal_proper b 0 (0 # 10)) by reflexivity.
    by rewrite (avg_decimal_tenths b 0).
  - rewrite (avg_decimal_proper b 5 (50 # 10)) by reflexivity.
    by rewrite (avg_decimal_tenths b 50).
Qed.

(** X23: when every rating of the album passes the validator of stars,
    both averages of the album page lie between 0 and 5; and when every
    rating is from the last 60 days the two averages are the same. *)
Theorem AlbumDetailView_averages_bounded (db : Database) (now : Z) (album : Album) :
  Forall (λ r, validate_stars_half_step (stars_value r) = Valid) (rating_set db album) →
  let context := AlbumDetailView_get_context_data db now album in
  ((0 <= all_time_avg context)%Q ∧ (all_time_avg context <= 5)%Q)
  ∧ ((0 <= recent_avg context)%Q ∧ (recent_avg context <= 5)%Q)
  ∧ (Forall (λ r, (now - timedelta_days 60 ≤ created_at r)%Z) (rating_set db album) →
     recent_avg context = all_time_avg context).
Proof.
  intros Hvalid. cbn [AlbumDetailView_get_context_data all_time_avg recent_avg].
  assert (Hrange : Forall (λ v, (0 <= v)%Q ∧ (v <= 5)%Q)
                     (stars_value <$> rating_set db album)).
  { apply Forall_fmap. eapply Forall_impl; [exact Hvalid|].
    intros r. apply validate_stars_half_step_range. }
  split; [|split].
  - by apply or_zero_Avg_between.
  - apply or_zero_Avg_between. apply Forall_fmap, Forall_forall.
    intros r [_ Hr]%list_elem_of_filter. rewrite Forall_fmap, Forall_forall in Hrange.
    by apply Hrange.
  - intros Hrecent. cbv zeta. by rewrite (filter_all _ _ Hrecent).
Qed.

Lemma AlbumDetailView_averages_bounded_witness :
  (0 <= recent_avg (AlbumDetailView_get_context_data (Fixtures.db Fixtures.today PUBLIC)
                      Fixtures.today Fixtures.explosion))%Q
  ∧ (recent_avg (AlbumDetailView_get_context_data (Fixtures.db Fixtures.today PUBLIC)
                   Fixtures.today Fixtures.explosion) <= 5)%Q.
Proof.
  destruct (AlbumDetailView_averages_bounded (Fixtures.db Fixtures.today PUBLIC)
              Fixtures.today Fixtures.explosion) as (_ & Hrecent & _).
  - simpl. repeat constructor.
  - exact Hrecent.
Defined.

(** ** What a search finds *)

Lemma prefix_spec (s1 s2 : string) :
  String.prefix s1 s2 = true ↔ ∃ post, s2 = String.append s1 post.
Proof.
  revert s1. induction s2 as [|b s2 IH]; intros [|a s1]; simpl.
  - split; [by exists EmptyString|done].
  - split; [done|by intros [post ?]].
  - split; [by eexists|done].
  - destruct (ascii_dec a b) as [->|Hne].
    + rewrite IH. split; intros [post Hpost]; exists post.
      * simpl. by rewrite Hpost.
      * simpl in Hpost. by injection Hpost.
    + split; [done|]. intros [post Hpost]. simpl in Hpost. by injection Hpost.
Qed.

Lemma contains_spec (needle hay : string) :
  contains needle hay = true
  ↔ ∃ pre post, hay = String.append pre (String.append needle post).
Proof.
  split.
  - induction hay as [|c hay IH]; cbn [contains].
    + rewrite orb_false_r. intros [post Hpost]%prefix_spec. by exists EmptyString, post.
    + intros [[post Hpost]%prefix_spec|Hrest]%orb_true_iff.
      * by exists EmptyString, post.
      * destruct (IH Hrest) as (pre & post & ->). by exists (String c pre), post.
  - intros (pre & post & ->). induction pre as [|c pre IH].
    + assert (Hprefix : String.prefix needle (String.append needle post) = true)
        by (apply prefix_spec; eauto).
      simpl. set (h := String.append needle post) in *. clearbody h.
      destruct h; cbn [contains]; apply orb_true_iff; left; exact Hprefix.
    + simpl. cbn [contains]. rewrite IH. apply orb_true_r.
Qed.

Lemma append_empty_r (s : string) : String.append s EmptyString = s.
Proof.
  induction s as [|c s IH]; [done|].
  change (String c (String.append s EmptyString) = String c s). by rewrite IH.
Qed.

(** X24: for a query that is not empty, an authenticated search finds
    exactly the stored albums whose title, letter case set aside, has the
    query somewhere inside it, and counts them; so an album is found by its
    whole title typed in any case. *)
Theorem album_search_results
    (db : Database) (u : User) (q : string) (context : SearchContext) :
  q ≠ EmptyString →
  album_search db (Authenticated u) (Some q) = HttpResponseOK context →
  (∀ a, a ∈ search_albums context
        ↔ a ∈ albums db
          ∧ ∃ pre post, lower (title a) = String.append pre (String.append (lower q) post))
  ∧ search_total_results context = length (search_albums context)
  ∧ (∀ a, a ∈ albums db → lower (title a) = lower q → a ∈ search_albums context).
Proof.
  intros Hq. unfold album_search. simpl.
  rewrite bool_decide_eq_true_2 by done. intros [= <-]. simpl.
  assert (Hfound : ∀ a, a ∈ filter (λ a, icontains q (title a) = true) (albums db)
                        ↔ a ∈ albums db
                          ∧ ∃ pre post,
                              lower (title a)
                              = String.append pre (String.append (lower q) post)).
  { intros a. rewrite list_elem_of_filter. unfold icontains. rewrite contains_spec. tauto. }
  split_and!; [exact Hfound|done|].
  intros a Hin Htitle. apply Hfound. split; [done|].
  exists EmptyString, EmptyString. by rewrite Htitle, append_empty_r.
Qed.

Lemma album_search_results_witness :
  Fixtures.explosion
  ∈ filter (λ a, icontains "EXPLOSION!!!" (title a) = true)
      (albums (Fixtures.db Fixtures.today PUBLIC)).
Proof.
  destruct (album_search_results (Fixtures.db Fixtures.today PUBLIC) Fixtures.megumin
              "EXPLOSION!!!"
              {| search_albums :=
                   filter (λ a, icontains "EXPLOSION!!!" (title a) = true)
                     (albums (Fixtures.db Fixtures.today PUBLIC));
                 search_query := "EXPLOSION!!!";
                 search_total_results := 1 |}) as (_ & _ & Hfound);
    [discriminate | reflexivity |].
  apply Hfound; [|reflexivity].
  simpl. apply list_elem_of_singleton. reflexivity.
Defined.

(** ** The properties above on the sample data *)

Lemma Album_objects_create_unowned_witness :
  ∃ a db',
    Album_objects_create slugify_ascii true (Fixtures.db Fixtures.today PUBLIC)
      Samples.konosuba
      = inr (a, db')
    ∧ artist_account a = None
    ∧ slug a = "kono-subarashii"
    ∧ AlbumUpdateView db' (Authenticated Fixtures.megumin_artist) (album_pk a) ≠ Granted.
Proof.
  eexists _, _. split; [reflexivity|].
  destruct (Album_objects_create_unowned slugify_ascii true
              (Fixtures.db Fixtures.today PUBLIC) Samples.konosuba _ _
              (Authenticated Fixtures.megumin_artist) eq_refl)
    as (Hnone & Hslug & _ & Hdenied & _).
  split_and!; [exact Hnone | exact Hslug |].
  apply Hdenied. discriminate.
Defined.

Lemma Album_save_slug_witness :
  ∃ a db',
    Album_save slugify_ascii true (Fixtures.db Fixtures.today PUBLIC)
      (set_slug Fixtures.explosion "not-the-title") = inr (a, db')
    ∧ slug a = "explosion"
    ∧ Album_objects_get_pk db' 1 = Some a.
Proof.
  eexists _, _. split; [reflexivity|].
  destruct (Album_save_slug slugify_ascii true (Fixtures.db Fixtures.today PUBLIC)
              (set_slug Fixtures.explosion "not-the-title") EmptyString) as [_ Hstored].
  destruct (Hstored _ _ eq_refl) as [_ Hget].
  split; [reflexivity|exact Hget].
Defined.

Lemma Album_objects_create_duplicate_witness :
  Album_objects_create slugify_ascii false (Fixtures.db Fixtures.today PUBLIC)
    Samples.explosion_again = inl IntegrityError.
Proof.
  apply (Album_objects_create_duplicate slugify_ascii false
           (Fixtures.db Fixtures.today PUBLIC)
           Samples.explosion_again Fixtures.explosion); try reflexivity.
  - simpl. apply list_elem_of_singleton. reflexivity.
  - by eexists.
Defined.

Lemma Album_objects_create_without_format_witness :
  ∃ a, Album_objects_create slugify_ascii true (Fixtures.db Fixtures.today PUBLIC)
         Samples.untitled_format
       = inr (a, set_albums (Fixtures.db Fixtures.today PUBLIC)
                   (albums (Fixtures.db Fixtures.today PUBLIC) ++ [a]))
       ∧ title a = "Explosion!!!" ∧ artist_name a = "Megumin" ∧ format a = None.
Proof.
  apply (Album_objects_create_without_format slugify_ascii true
           (Fixtures.db Fixtures.today PUBLIC) Samples.untitled_format);
    reflexivity.
Defined.

Lemma HomeView_get_context_data_scope_witness :
  Fixtures.chunchunmaru
  ∈ Song_default_ordering false (songs (Fixtures.db Fixtures.today PUBLIC)).
Proof.
  destruct (HomeView_get_context_data_scope false (Fixtures.db Fixtures.today PUBLIC)
              (Authenticated Fixtures.aqua)) as (_ & _ & Hsongs & _).
  apply (Hsongs _ Fixtures.chunchunmaru eq_refl).
  simpl. apply elem_of_cons. left. reflexivity.
Defined.
